(** * Concepts of the social-networking backend, embedded in Rocq

    The server keeps one document collection per concept (messages,
    moods, video calls).  A collection is embedded as the list of its
    documents in insertion order together with the next free
    identifier; every concept method becomes a function from the
    collection before the call to a result and the collection after it.
    [new Date()] is the argument [now] of the method that reads the
    clock. *)

From stdpp Require Import strings numbers base option list sorting.

Open Scope Z_scope.

(** ** Values shared by all concepts *)

(** A MongoDB [ObjectId]: an opaque token, of which only equality is
    used ([ObjectId.equals], equality filters). *)
Definition ObjectId := N.

(** A JavaScript [Date], as milliseconds since the epoch. *)
Definition Date := Z.

(** What is thrown: the error classes of [concepts/errors] that the
    concepts throw, the plain [Error] of the routes, and the
    [TypeError] with which JavaScript answers a call of something that
    is not a function. *)
Inductive error : Type :=
  | BadValuesError (msg : string)
  | NotFoundError (msg : string)
  | NotAllowedError (msg : string)
  | PlainError (msg : string)
  | TypeError (msg : string).

(** The outcome of an [async] method: the value it resolves to, or the
    error it throws. *)
Inductive result (A : Type) : Type :=
  | Ok (a : A)
  | Throw (e : error).
Arguments Ok {A} a.
Arguments Throw {A} e.

Definition is_Ok {A} (r : result A) : bool :=
  match r with Ok _ => true | Throw _ => false end.

Definition is_TypeError {A} (r : result A) : bool :=
  match r with Throw (TypeError _) => true | _ => false end.

(** ** The document store *)

Module DocCollection.

(** Modelled from the spec: [framework/doc] is not part of the
    sources at hand.  The spec gives its interface: per collection
    create(doc)→id, readOne(filter)→doc|null,
    readMany(filter,opts)→sequence, partialUpdateOne(filter,patch)
    and deleteOne(filter)→count, each document carrying implicit
    creation and update timestamps.  A filter is the predicate it
    denotes on documents; a patch is the function that overwrites the
    patched fields. *)
Record BaseDoc (S : Type) : Type := mkDoc {
  _id : ObjectId;
  dateCreated : Date;
  dateUpdated : Date;
  fields : S
}.
Arguments mkDoc {S} _ _ _ _.
Arguments _id {S} _.
Arguments dateCreated {S} _.
Arguments dateUpdated {S} _.
Arguments fields {S} _.

Record t (S : Type) : Type := mkColl {
  docs : list (BaseDoc S);
  nextId : ObjectId
}.
Arguments mkColl {S} _ _.
Arguments docs {S} _.
Arguments nextId {S} _.

Definition empty {S} : t S := mkColl [] 0%N.

(** The direction of a [sort] option: [1] or [-1]. *)
Inductive direction := Ascending | Descending.

Definition sort_le {S} (key : BaseDoc S → Z) (d : direction)
    (x y : BaseDoc S) : Prop :=
  match d with
  | Ascending => key x ≤ key y
  | Descending => key y ≤ key x
  end.

Global Instance sort_le_dec {S} (key : BaseDoc S → Z) d x y :
  Decision (sort_le key d x y).
Proof. destruct d; simpl; apply _. Defined.

Section operations.
Context {S : Type}.
Implicit Types (c : t S) (P : BaseDoc S → Prop).

(** Modelled from the spec: create(doc)→id. *)
Definition createOne (item : S) (now : Date) c : ObjectId * t S :=
  (nextId c,
   mkColl (docs c ++ [mkDoc (nextId c) now now item]) (N.succ (nextId c))).

(** Modelled from the spec: readOne(filter)→doc|null; the first
    document, in insertion order, that the filter accepts. *)
Definition first_of P `{∀ d, Decision (P d)} (l : list (BaseDoc S))
    : option (BaseDoc S) :=
  snd <$> list_find P l.

Definition readOne P `{∀ d, Decision (P d)} c : option (BaseDoc S) :=
  first_of P (docs c).

(** Modelled from the spec: readMany(filter,opts)→sequence, where
    the options may ask for the documents to be sorted on a key. *)
Definition readMany P `{∀ d, Decision (P d)}
    (sort : option ((BaseDoc S → Z) * direction)) c : list (BaseDoc S) :=
  match sort with
  | None => filter P (docs c)
  | Some (key, d) => merge_sort (sort_le key d) (filter P (docs c))
  end.

Fixpoint update_first P `{∀ d, Decision (P d)}
    (g : BaseDoc S → BaseDoc S) (l : list (BaseDoc S)) : list (BaseDoc S) :=
  match l with
  | [] => []
  | d :: l' => if decide (P d) then g d :: l' else d :: update_first P g l'
  end.

(** Modelled from the spec: partialUpdateOne(filter,patch); the
    first accepted document gets the patch and a new update
    timestamp, and nothing happens when the filter accepts none. *)
Definition partialUpdateOne P `{∀ d, Decision (P d)}
    (patch : S → S) (now : Date) c : t S :=
  mkColl
    (update_first P
       (λ d, mkDoc (_id d) (dateCreated d) now (patch (fields d)))
       (docs c))
    (nextId c).

Fixpoint delete_first P `{∀ d, Decision (P d)}
    (l : list (BaseDoc S)) : list (BaseDoc S) :=
  match l with
  | [] => []
  | d :: l' => if decide (P d) then l' else d :: delete_first P l'
  end.

(** The [DeleteResult] of the driver, of which [deletedCount] is
    read. *)
Record DeleteResult := { deletedCount : nat }.

(** Modelled from the spec: deleteOne(filter)→count; removes the
    first accepted document. *)
Definition deleteOne P `{∀ d, Decision (P d)} c : DeleteResult * t S :=
  ({| deletedCount := match readOne P c with Some _ => 1%nat | None => 0%nat end |},
   mkColl (delete_first P (docs c)) (nextId c)).
End operations.

End DocCollection.

Import DocCollection.

(** ** concept: Texting [User] *)

Module TextingConcept.

Record MessageDoc : Type := {
  sender : ObjectId;
  recipient : ObjectId;
  content : string;
  timestamp : Date
}.

Definition messages := DocCollection.t MessageDoc.

Definition sender_of (d : BaseDoc MessageDoc) := sender (fields d).
Definition recipient_of (d : BaseDoc MessageDoc) := recipient (fields d).
Definition timestamp_of (d : BaseDoc MessageDoc) := timestamp (fields d).

(** [sendMessage(sender, recipient, content)] *)
Definition sendMessage (s r : ObjectId) (text : string) (now : Date)
    (c : messages) : result (string * option (BaseDoc MessageDoc)) * messages :=
  if decide (text = "") then
    (Throw (BadValuesError "Message content cannot be empty"), c)
  else
    let '(i, c') :=
      createOne {| sender := s; recipient := r; content := text;
                   timestamp := now |} now c in
    (Ok ("Message sent successfully!", readOne (λ d, _id d = i) c'), c').

(** [getMessageById(_id)] *)
Definition getMessageById (i : ObjectId) (c : messages)
    : result (BaseDoc MessageDoc) :=
  match readOne (λ d, _id d = i) c with
  | None => Throw (NotFoundError "Message not found")
  | Some m => Ok m
  end.

(** The filter
    [{ $or: [{ sender: user1, recipient: user2 },
             { sender: user2, recipient: user1 }] }]. *)
Definition between (user1 user2 : ObjectId) (d : BaseDoc MessageDoc) : Prop :=
  (sender_of d = user1 ∧ recipient_of d = user2)
  ∨ (sender_of d = user2 ∧ recipient_of d = user1).

Global Instance between_dec u1 u2 d : Decision (between u1 u2 d).
Proof. unfold between; apply _. Defined.

(** [getMessagesBetweenUsers(user1, user2)] *)
Definition getMessagesBetweenUsers (user1 user2 : ObjectId) (c : messages)
    : list (BaseDoc MessageDoc) :=
  readMany (between user1 user2) (Some (timestamp_of, Ascending)) c.

(** [getMessagesForUser(userId)] *)
Definition getMessagesForUser (userId : ObjectId) (c : messages)
    : list (BaseDoc MessageDoc) :=
  readMany (λ d, recipient_of d = userId) (Some (timestamp_of, Descending)) c.

(** [deleteMessage(_id)] *)
Definition deleteMessage (i : ObjectId) (c : messages)
    : result string * messages :=
  let '(_, c') := deleteOne (λ d, _id d = i) c in
  (Ok "Message deleted successfully!", c').

End TextingConcept.

(** ** concept: Video Calling [User, Call] *)

Module VideoCallingConcept.

(** [CallDoc] declares [caller], [recipient], [startTime] and the
    optional [endTime].  The routes also read a property [status] of
    the stored object; it is [None] on an object that does not carry
    it, as a property read of JavaScript yields [undefined] there.
    No method of the class writes it. *)
Record CallDoc : Type := {
  caller : ObjectId;
  recipient : ObjectId;
  startTime : Date;
  endTime : option Date;
  status : option string
}.

Definition activeCalls := DocCollection.t CallDoc.

Definition caller_of (d : BaseDoc CallDoc) := caller (fields d).
Definition recipient_of (d : BaseDoc CallDoc) := recipient (fields d).
Definition endTime_of (d : BaseDoc CallDoc) := endTime (fields d).
Definition status_of (d : BaseDoc CallDoc) := status (fields d).

(** [startCall(caller, recipient)] *)
Definition startCall (c r : ObjectId) (now : Date) (calls : activeCalls)
    : result (string * option (BaseDoc CallDoc)) * activeCalls :=
  if decide (c = r) then
    (Throw (BadValuesError "Caller and recipient cannot be the same user."),
     calls)
  else
    let '(i, calls') :=
      createOne {| caller := c; recipient := r; startTime := now;
                   endTime := None; status := None |} now calls in
    (Ok ("Call started successfully!", readOne (λ d, _id d = i) calls'),
     calls').

(** The patch [{ endTime }]. *)
Definition set_endTime (t : Date) (d : CallDoc) : CallDoc :=
  {| caller := caller d; recipient := recipient d; startTime := startTime d;
     endTime := Some t; status := status d |}.

(** [endCall(callId)] *)
Definition endCall (callId : ObjectId) (now : Date) (calls : activeCalls)
    : result string * activeCalls :=
  match readOne (λ d, _id d = callId) calls with
  | None => (Throw (NotFoundError "Call not found."), calls)
  | Some call =>
      match endTime_of call with
      | Some _ => (Throw (BadValuesError "Call has already ended."), calls)
      | None =>
          (Ok "Call ended successfully!",
           partialUpdateOne (λ d, _id d = callId) (set_endTime now) now calls)
      end
  end.

(** [getCallStatus(callId)] *)
Definition getCallStatus (callId : ObjectId) (calls : activeCalls)
    : result (BaseDoc CallDoc) :=
  match readOne (λ d, _id d = callId) calls with
  | None => Throw (NotFoundError "Call not found.")
  | Some call => Ok call
  end.

(** A call record that has not ended and involves the user. *)
Definition involves (userId : ObjectId) (d : BaseDoc CallDoc) : Prop :=
  (caller_of d = userId ∨ recipient_of d = userId) ∧ endTime_of d = None.

Global Instance involves_dec u d : Decision (involves u d).
Proof. unfold involves; apply _. Defined.

End VideoCallingConcept.

(** ** concept: Mood Mapping [User, Message] *)

Module MoodMappingConcept.

Record MoodDoc : Type := {
  user : ObjectId;
  friend : ObjectId;
  mood : string
}.

Definition moods := DocCollection.t MoodDoc.

Definition user_of (d : BaseDoc MoodDoc) := user (fields d).
Definition friend_of (d : BaseDoc MoodDoc) := friend (fields d).
Definition mood_of (d : BaseDoc MoodDoc) := mood (fields d).

(** The filter [{ user, friend }]. *)
Definition pair (u f : ObjectId) (d : BaseDoc MoodDoc) : Prop :=
  user_of d = u ∧ friend_of d = f.

Global Instance pair_dec u f d : Decision (pair u f d).
Proof. unfold pair; apply _. Defined.

(** The patch [{ mood }]. *)
Definition set_mood (m : string) (d : MoodDoc) : MoodDoc :=
  {| user := user d; friend := friend d; mood := m |}.

Section methods.

(** [/^\p{Emoji}$/u.test]: whether a string is one code point that has
    the Unicode property Emoji.  The table of that property belongs to
    the JavaScript engine, so the test is a parameter of the methods. *)
Variable single_emoji : string → bool.

(** [setMood(user, friend, mood)] *)
Definition setMood (u f : ObjectId) (m : string) (now : Date) (c : moods)
    : result (string * option (BaseDoc MoodDoc)) * moods :=
  if bool_decide (m = "") || negb (single_emoji m) then
    (Throw (BadValuesError "Mood must be a valid emoji!"), c)
  else
    match readOne (λ d, user_of d = u) c with
    | Some existingMood =>
        let c' := partialUpdateOne (pair u f) (set_mood m) now c in
        (Ok ("Mood updated successfully!", readOne (pair u f) c'), c')
    | None =>
        let '(i, c') :=
          createOne {| user := u; friend := f; mood := m |} now c in
        (Ok ("Mood set successfully!", readOne (λ d, _id d = i) c'), c')
    end.

End methods.

(** [getBothMoods(user, friend)]: the fields [yourMood] and
    [friendMood] of the answer. *)
Definition getBothMoods (u f : ObjectId) (c : moods)
    : option string * option string :=
  (mood_of <$> readOne (pair u f) c, mood_of <$> readOne (pair f u) c).

(** [removeMood(user, friend)]; the two [console.log] lines write to
    the server's log only. *)
Definition removeMood (u f : ObjectId) (c : moods) : result string * moods :=
  let '(deletedMood, c') := deleteOne (pair u f) c in
  if decide (deletedCount deletedMood = 0%nat) then
    (Throw (NotFoundError "No mood was set for this user."), c')
  else
    (Ok "Mood removed successfully!", c').

(** The collections the methods can produce, starting from the empty
    one. *)
Inductive reachable (single_emoji : string → bool) : moods → Prop :=
  | reach_empty : reachable single_emoji DocCollection.empty
  | reach_setMood u f m now c :
      reachable single_emoji c →
      reachable single_emoji (setMood single_emoji u f m now c).2
  | reach_removeMood u f c :
      reachable single_emoji c →
      reachable single_emoji (removeMood u f c).2.

(** A test that accepts the code points of the Emoticons block,
    U+1F600 to U+1F64F, in UTF-8 (F0 9F 98 80 to F0 9F 99 8F), all of
    which have the property Emoji; it is used to run the methods on
    examples. *)
Definition emoticon (s : string) : bool :=
  match s with
  | String a (String b (String c (String d EmptyString))) =>
      let a := Ascii.N_of_ascii a in let b := Ascii.N_of_ascii b in
      let c := Ascii.N_of_ascii c in let d := Ascii.N_of_ascii d in
      (a =? 0xF0)%N && (b =? 0x9F)%N
      && (((c =? 0x98)%N && (0x80 <=? d)%N && (d <=? 0xBF)%N)
          || ((c =? 0x99)%N && (0x80 <=? d)%N && (d <=? 0x8F)%N))
  | _ => false
  end.

End MoodMappingConcept.

(** ** Collaborators of the routes *)

Module SessioningConcept.

(** The session of a request: it names the logged-in user, if any. *)
Definition SessionDoc := option ObjectId.

(** Modelled from the spec: [concepts/sessioning] is not part of the
    sources at hand.  The session context "resolves the calling
    identity from request-scoped state" and fails when there is
    none. *)
Definition getUser (session : SessionDoc) : result ObjectId :=
  match session with
  | Some u => Ok u
  | None => Throw (NotFoundError "Must be logged in!")
  end.

End SessioningConcept.

Module AuthenticatingConcept.

Record UserDoc : Type := { username : string }.

Definition users := DocCollection.t UserDoc.

Definition username_of (d : BaseDoc UserDoc) := username (fields d).

(** Modelled from the spec: [concepts/authenticating] is not part of
    the sources at hand.  The identity directory "maps usernames ↔
    opaque user identifiers", and a failed resolution is a not-found
    error. *)
Definition getUserById (i : ObjectId) (us : users) : result (BaseDoc UserDoc) :=
  match readOne (λ d, _id d = i) us with
  | Some u => Ok u
  | None => Throw (NotFoundError "User not found!")
  end.

(** Modelled from the spec: as [getUserById], by name.  The routes
    test the answer for [null], so it is an option here. *)
Definition getUserByUsername (name : string) (us : users)
    : result (option (BaseDoc UserDoc)) :=
  match readOne (λ d, username_of d = name) us with
  | Some u => Ok (Some u)
  | None => Throw (NotFoundError "User not found!")
  end.

End AuthenticatingConcept.

Module FriendingConcept.

(** A friend edge between two users. *)
Record FriendshipDoc : Type := { user1 : ObjectId; user2 : ObjectId }.

Definition friends := DocCollection.t FriendshipDoc.

(** The edge joins [a] and [b], in either order: the relation is
    symmetric. *)
Definition edge (a b : ObjectId) (d : BaseDoc FriendshipDoc) : Prop :=
  (user1 (fields d) = a ∧ user2 (fields d) = b)
  ∨ (user1 (fields d) = b ∧ user2 (fields d) = a).

Global Instance edge_dec a b d : Decision (edge a b d).
Proof. unfold edge; apply _. Defined.

(** Modelled from the spec: [concepts/friending] is not part of the
    sources at hand.  [assertAreFriends(a, b, nameA, nameB)] "fails
    with an authorization error naming both parties if no edge
    exists". *)
Definition assertAreFriends (a b : ObjectId) (nameA nameB : string)
    (fs : friends) : result unit :=
  match readOne (edge a b) fs with
  | Some _ => Ok ()
  | None =>
      Throw (NotAllowedError (nameA +:+ " and " +:+ nameB +:+ " are not friends!"))
  end.

End FriendingConcept.

(** ** The routes of the calls *)

Module Routes.

Import SessioningConcept AuthenticatingConcept FriendingConcept.

(** [app.ts]: the concepts the routes synchronise.  Only the three
    collections the call routes touch are kept. *)
Record App : Type := {
  Authing : users;
  Friending : friends;
  VideoCalling : VideoCallingConcept.activeCalls
}.

(** A route runs on the collections and either answers or throws;
    what it wrote before throwing stays written. *)
Definition M (A : Type) : Type := App → result A * App.

Global Instance M_ret : MRet M := λ A a app, (Ok a, app).

Global Instance M_bind : MBind M := λ A B k m app,
  match m app with
  | (Ok a, app') => k a app'
  | (Throw e, app') => (Throw e, app')
  end.

Definition throw {A} (e : error) : M A := λ app, (Throw e, app).

(** A method that does not touch the collections. *)
Definition pure {A} (r : result A) : M A := λ app, (r, app).

(** A method that reads one collection. *)
Definition reading {C A} (get : App → C) (f : C → result A) : M A :=
  λ app, (f (get app), app).

(** A method of the video calls that may write the collection. *)
Definition calling {A}
    (f : VideoCallingConcept.activeCalls →
         result A * VideoCallingConcept.activeCalls) : M A :=
  λ app,
    let '(r, calls') := f (VideoCalling app) in
    (r, {| Authing := Authing app; Friending := Friending app;
           VideoCalling := calls' |}).

(** A call [VideoCalling.method(...)] of a method that class
    [VideoCallingConcept] does not define: the class has [startCall],
    [endCall] and [getCallStatus] and nothing else, so the property
    read yields [undefined], and calling that throws a [TypeError]
    before any collection is read or written. *)
Definition not_a_function {A} (method : string) : M A :=
  throw (TypeError ("VideoCalling." +:+ method +:+ " is not a function")).

(** [POST /calls] *)
Definition startCall (session : SessionDoc) (recipient : string) (now : Date)
    : M (string * option (BaseDoc VideoCallingConcept.CallDoc)) :=
  callerId ← pure (getUser session);
  callerUser ← reading Authing (getUserById callerId);
  recipientUser ← reading Authing (getUserByUsername recipient);
  match recipientUser with
  | None =>
      throw (PlainError
               ("Recipient with username " +:+ recipient +:+ " not found."))
  | Some recipientUser =>
      _ ← reading Friending
            (assertAreFriends callerId (_id recipientUser)
               (username_of callerUser) (username_of recipientUser));
      calling (VideoCallingConcept.startCall callerId (_id recipientUser) now)
  end.

(** [PUT /calls/end] *)
Definition endCall (session : SessionDoc) (recipient : string) (now : Date)
    : M string :=
  userId ← pure (getUser session);
  call ← not_a_function (A := option (BaseDoc VideoCallingConcept.CallDoc))
           "getCallStatusForUser";
  match call with
  | None => throw (PlainError "You are not currently in any call to end.")
  | Some call => calling (VideoCallingConcept.endCall (_id call) now)
  end.

(** The answer of [GET /calls/status]: [msg], and, when the route puts
    them in, [status], [caller], [recipient] and [otherUser]. *)
Record CallStatus : Type := {
  msg : string;
  status : option string;
  caller : option string;
  recipient : option string;
  otherUser : option string
}.

(** [GET /calls/status] *)
Definition getCallStatus (session : SessionDoc) : M CallStatus :=
  userId ← pure (getUser session);
  call ← not_a_function (A := option (BaseDoc VideoCallingConcept.CallDoc))
           "getCallStatusForUser";
  match call with
  | None =>
      pendingCall ← not_a_function
                      (A := option (BaseDoc VideoCallingConcept.CallDoc))
                      "getPendingCall";
      match pendingCall with
      | Some pendingCall =>
          callerUser ← reading Authing
                         (getUserById (VideoCallingConcept.caller_of pendingCall));
          mret {| msg := username_of callerUser +:+ " is calling you.";
                  status := Some "pending";
                  caller := Some (username_of callerUser);
                  recipient := None; otherUser := None |}
      | None =>
          mret {| msg := "You are not in a call and no one is calling you.";
                  status := None; caller := None; recipient := None;
                  otherUser := None |}
      end
  | Some call =>
      let isCaller := bool_decide (VideoCallingConcept.caller_of call = userId) in
      let otherUserId :=
        if isCaller then VideoCallingConcept.recipient_of call
        else VideoCallingConcept.caller_of call in
      otherUser ← reading Authing (getUserById otherUserId);
      if bool_decide (VideoCallingConcept.status_of call = Some "pending") then
        if isCaller then
          mret {| msg := "You are ringing " +:+ username_of otherUser +:+ ".";
                  status := Some "pending"; caller := None;
                  recipient := Some (username_of otherUser);
                  otherUser := None |}
        else
          mret {| msg := username_of otherUser +:+ " is calling you.";
                  status := Some "pending";
                  caller := Some (username_of otherUser);
                  recipient := None; otherUser := None |}
      else
        mret {| msg := "You are in an active call with "
                       +:+ username_of otherUser +:+ ".";
                status := Some "active"; caller := None; recipient := None;
                otherUser := Some (username_of otherUser) |}
  end.

(** [PUT /calls/accept] *)
Definition acceptCall (session : SessionDoc) (now : Date) : M string :=
  recipientId ← pure (getUser session);
  not_a_function "acceptPendingCall".

(** The scenario: alice and bob are registered and friends, and nobody
    has called yet. *)
Definition alice : ObjectId := 1%N.
Definition bob : ObjectId := 2%N.

Definition friends_alice_bob : App :=
  {| Authing :=
       mkColl [mkDoc alice 0 0 {| username := "alice" |};
               mkDoc bob 0 0 {| username := "bob" |}] 3%N;
     Friending := mkColl [mkDoc 0%N 0 0 {| user1 := alice; user2 := bob |}] 1%N;
     VideoCalling := DocCollection.empty |}.

(** alice calls bob at time 10. *)
Definition after_start : App :=
  (startCall (Some alice) "bob" 10 friends_alice_bob).2.

(** then bob sends the request to accept at time 20. *)
Definition after_accept : App := (acceptCall (Some bob) 20 after_start).2.

(** then bob sends the request to end the call at time 30. *)
Definition after_end : App := (endCall (Some bob) "alice" 30 after_accept).2.

End Routes.

(** ** concept: Mood Mapping [User, Message], one mood per user

    The sources hold a second revision of the concept, whose documents
    have no [friend]: a user has one mood, whoever reads it. *)

Module MoodMappingConcept1.

Record MoodDoc : Type := {
  user : ObjectId;
  mood : string
}.

Definition moods := DocCollection.t MoodDoc.

Definition user_of (d : BaseDoc MoodDoc) := user (fields d).
Definition mood_of (d : BaseDoc MoodDoc) := mood (fields d).

(** The patch [{ mood }]. *)
Definition set_mood (m : string) (d : MoodDoc) : MoodDoc :=
  {| user := user d; mood := m |}.

(** [setMood(user, mood)] *)
Definition setMood (u : ObjectId) (m : string) (now : Date) (c : moods)
    : result (string * option (BaseDoc MoodDoc)) * moods :=
  if decide (m = "") then
    (Throw (BadValuesError "Mood cannot be empty!"), c)
  else
    match readOne (λ d, user_of d = u) c with
    | Some existingMood =>
        let c' := partialUpdateOne (λ d, user_of d = u) (set_mood m) now c in
        (Ok ("Mood updated successfully!", readOne (λ d, user_of d = u) c'), c')
    | None =>
        let '(i, c') := createOne {| user := u; mood := m |} now c in
        (Ok ("Mood set successfully!", readOne (λ d, _id d = i) c'), c')
    end.

(** [getMood(user)] *)
Definition getMood (u : ObjectId) (c : moods) : result (BaseDoc MoodDoc) :=
  match readOne (λ d, user_of d = u) c with
  | None => Throw (NotFoundError "Mood not found for this user.")
  | Some m => Ok m
  end.

(** [!deletedMood]: what [deleteOne] answers is an object, and no
    object is falsy in JavaScript, whatever its [deletedCount]. *)
Definition falsy (deletedMood : DeleteResult) : bool := false.

(** [removeMood(user)] *)
Definition removeMood (u : ObjectId) (c : moods) : result string * moods :=
  let '(deletedMood, c') := deleteOne (λ d, user_of d = u) c in
  if falsy deletedMood then
    (Throw (NotFoundError "No mood was set for this user."), c')
  else
    (Ok "Mood removed successfully!", c').

(** The collections the methods can produce, starting from the empty
    one. *)
Inductive reachable : moods → Prop :=
  | reach_empty : reachable DocCollection.empty
  | reach_setMood u m now c :
      reachable c → reachable (setMood u m now c).2
  | reach_removeMood u c :
      reachable c → reachable (removeMood u c).2.

End MoodMappingConcept1.

(** ** The routes of the moods *)

Module MoodRoutes.

Import SessioningConcept AuthenticatingConcept FriendingConcept.

(** [app.ts]: the three collections the mood routes touch. *)
Record App : Type := {
  Authing : users;
  Friending : friends;
  MoodMapping : MoodMappingConcept.moods
}.

Definition M (A : Type) : Type := App → result A * App.

Global Instance M_ret : MRet M := λ A a app, (Ok a, app).

Global Instance M_bind : MBind M := λ A B k m app,
  match m app with
  | (Ok a, app') => k a app'
  | (Throw e, app') => (Throw e, app')
  end.

Definition throw {A} (e : error) : M A := λ app, (Throw e, app).

(** A method that does not touch the collections. *)
Definition pure {A} (r : result A) : M A := λ app, (r, app).

(** A method that reads one collection. *)
Definition reading {C A} (get : App → C) (f : C → result A) : M A :=
  λ app, (f (get app), app).

(** A method of the moods that may write the collection. *)
Definition mooding {A}
    (f : MoodMappingConcept.moods → result A * MoodMappingConcept.moods)
    : M A :=
  λ app,
    let '(r, moods') := f (MoodMapping app) in
    (r, {| Authing := Authing app; Friending := Friending app;
           MoodMapping := moods' |}).

Section routes.

(** The emoji test of [MoodMappingConcept.setMood]. *)
Variable single_emoji : string → bool.

(** [POST /moods] *)
Definition setMood (session : SessionDoc) (mood recipient : string)
    (now : Date)
    : M (string * option (BaseDoc MoodMappingConcept.MoodDoc)) :=
  user ← pure (getUser session);
  recipientUser ← reading Authing (getUserByUsername recipient);
  match recipientUser with
  | None =>
      throw (PlainError ("User with username " +:+ recipient +:+ " not found."))
  | Some recipientUser =>
      userDoc ← reading Authing (getUserById user);
      let userName := username_of userDoc in
      let recipientName := username_of recipientUser in
      _ ← reading Friending
            (assertAreFriends user (_id recipientUser) userName recipientName);
      mooding (MoodMappingConcept.setMood single_emoji user (_id recipientUser)
                 mood now)
  end.

End routes.

(** [x || ""], for [x] a string, [null] or [undefined]. *)
Definition or_empty (x : option string) : string :=
  match x with
  | Some s => if decide (s = "") then "" else s
  | None => ""
  end.

(** The property [yourMood] of what [getBothMoods] answers. *)
Definition yourMood (moods : option string * option string) : option string :=
  moods.1.

(** The property [recipientMood] of what [getBothMoods] answers: the
    answer has the properties [yourMood] and [friendMood] and no
    other, so the read yields [undefined]. *)
Definition recipientMood (moods : option string * option string)
    : option string :=
  None.

(** [GET /moods/:recipient] *)
Definition getMood (session : SessionDoc) (recipient : string) : M string :=
  user ← pure (getUser session);
  recipientUser ← reading Authing (getUserByUsername recipient);
  match recipientUser with
  | None =>
      throw (PlainError ("User with username " +:+ recipient +:+ " not found."))
  | Some recipientUser =>
      userDoc ← reading Authing (getUserById user);
      let userName := username_of userDoc in
      let recipientName := username_of recipientUser in
      _ ← reading Friending
            (assertAreFriends user (_id recipientUser) userName recipientName);
      moods ← reading MoodMapping
                (λ c, Ok (MoodMappingConcept.getBothMoods user
                            (_id recipientUser) c));
      mret ("You: " +:+ or_empty (yourMood moods) +:+ "    "
            +:+ recipientName +:+ ": " +:+ or_empty (recipientMood moods))
  end.

(** [DELETE /moods] *)
Definition removeMood (session : SessionDoc) (recipient : string) : M string :=
  user ← pure (getUser session);
  recipientUser ← reading Authing (getUserByUsername recipient);
  match recipientUser with
  | None =>
      throw (PlainError ("User with username " +:+ recipient +:+ " not found."))
  | Some recipientUser =>
      userDoc ← reading Authing (getUserById user);
      let userName := username_of userDoc in
      let recipientName := username_of recipientUser in
      _ ← reading Friending
            (assertAreFriends user (_id recipientUser) userName recipientName);
      mooding (MoodMappingConcept.removeMood user (_id recipientUser))
  end.

End MoodRoutes.

(** * Properties *)

(** ** The document store *)

Section collection_facts.
Context {T : Type}.
Implicit Types (c : DocCollection.t T) (l : list (BaseDoc T)).
Implicit Types (P : BaseDoc T → Prop).

Lemma first_of_cons P `{∀ d, Decision (P d)} d l :
  first_of P (d :: l) = if decide (P d) then Some d else first_of P l.
Proof.
  unfold first_of. simpl. destruct (decide (P d)) as [|]; [done|].
  by destruct (list_find P l) as [[??]|].
Qed.

Lemma readOne_docs P `{∀ d, Decision (P d)} c :
  readOne P c = first_of P (docs c).
Proof. done. Qed.

Lemma first_of_None P `{∀ d, Decision (P d)} l :
  first_of P l = None ↔ Forall (λ d, ¬ P d) l.
Proof.
  induction l as [|d l IH]; [by split; [constructor|]|].
  rewrite first_of_cons, Forall_cons. destruct (decide (P d)) as [HP|HP].
  - split; [done|]. by intros [? _].
  - rewrite IH. by split; [|intros [_ ?]].
Qed.

Lemma first_of_Some P `{∀ d, Decision (P d)} l d :
  first_of P l = Some d → d ∈ l ∧ P d.
Proof.
  induction l as [|x l IH]; [done|]. rewrite first_of_cons.
  destruct (decide (P x)).
  - intros [= ->]. split; [left|done].
  - intros [??]%IH. split; [by right|done].
Qed.

Lemma first_of_is_Some P `{∀ d, Decision (P d)} l :
  is_Some (first_of P l) ↔ Exists P l.
Proof.
  induction l as [|d l IH].
  - split; [by intros [? [=]]|by intros ?%Exists_nil].
  - rewrite first_of_cons, Exists_cons. destruct (decide (P d)) as [HP|HP].
    + split; [by left|by eexists].
    + rewrite IH. by split; [right|intros [|]].
Qed.

Lemma filter_none P `{∀ d, Decision (P d)} l :
  Forall (λ d, ¬ P d) l → filter P l = [].
Proof.
  induction 1 as [|d l ?? IH]; [done|]. by rewrite filter_cons_False.
Qed.

Lemma delete_first_none P `{∀ d, Decision (P d)} l :
  Forall (λ d, ¬ P d) l → delete_first P l = l.
Proof.
  induction 1 as [|d l ?? IH]; [done|]. simpl.
  destruct (decide (P d)); [done|]. by rewrite IH.
Qed.

Lemma delete_first_length P `{∀ d, Decision (P d)} l :
  Exists P l → S (length (delete_first P l)) = length l.
Proof.
  induction l as [|d l IH]; [by intros ?%Exists_nil|].
  intros HE. simpl. destruct (decide (P d)); [done|].
  apply Exists_cons in HE as [|HE]; [done|]. simpl. by rewrite IH.
Qed.

Lemma delete_first_filter_same P `{∀ d, Decision (P d)} l :
  Exists P l → S (length (filter P (delete_first P l))) = length (filter P l).
Proof.
  induction l as [|d l IH]; [by intros ?%Exists_nil|].
  intros HE. simpl. destruct (decide (P d)) as [|Hn].
  - by rewrite filter_cons_True.
  - apply Exists_cons in HE as [|HE]; [done|].
    rewrite !filter_cons_False by done. by apply IH.
Qed.

Lemma delete_first_filter_other P `{∀ d, Decision (P d)}
    (Q : BaseDoc T → Prop) `{∀ d, Decision (Q d)} l :
  (∀ d, P d → ¬ Q d) → filter Q (delete_first P l) = filter Q l.
Proof.
  intros HPQ. induction l as [|d l IH]; [done|]. simpl.
  destruct (decide (P d)) as [HP|].
  - by rewrite filter_cons_False by auto.
  - destruct (decide (Q d)).
    + by rewrite !filter_cons_True, IH.
    + by rewrite !filter_cons_False.
Qed.

Lemma delete_first_filter_le P `{∀ d, Decision (P d)}
    (Q : BaseDoc T → Prop) `{∀ d, Decision (Q d)} l :
  (length (filter Q (delete_first P l)) ≤ length (filter Q l))%nat.
Proof.
  induction l as [|d l IH]; [done|]. simpl.
  destruct (decide (P d)).
  - destruct (decide (Q d)).
    + rewrite filter_cons_True by done. simpl. lia.
    + by rewrite filter_cons_False.
  - destruct (decide (Q d)).
    + rewrite !filter_cons_True by done. simpl. lia.
    + by rewrite !filter_cons_False.
Qed.

Lemma update_first_length P `{∀ d, Decision (P d)} g l :
  length (update_first P g l) = length l.
Proof.
  induction l as [|d l IH]; [done|]. simpl.
  destruct (decide (P d)); simpl; by rewrite ?IH.
Qed.

Lemma update_first_none P `{∀ d, Decision (P d)} g l :
  Forall (λ d, ¬ P d) l → update_first P g l = l.
Proof.
  induction 1 as [|d l ?? IH]; [done|]. simpl.
  destruct (decide (P d)); [done|]. by rewrite IH.
Qed.

(** A patch that keeps a document inside and outside a filter [Q] as
    it was keeps the documents that [Q] accepts, up to the patch. *)
Lemma update_first_filter_length P `{∀ d, Decision (P d)}
    (Q : BaseDoc T → Prop) `{∀ d, Decision (Q d)} g l :
  (∀ d, Q (g d) ↔ Q d) →
  length (filter Q (update_first P g l)) = length (filter Q l).
Proof.
  intros Hg. induction l as [|d l IH]; [done|]. simpl.
  destruct (decide (P d)).
  - destruct (decide (Q d)) as [HQ|HQ].
    + rewrite !filter_cons_True by (done || by apply Hg). done.
    + rewrite !filter_cons_False by (done || by rewrite Hg). done.
  - destruct (decide (Q d)).
    + rewrite !filter_cons_True by done. simpl. by rewrite IH.
    + by rewrite !filter_cons_False.
Qed.

(** After the update, the first document that an identifier filter
    finds is the patched one. *)
Lemma update_first_by_id (i : ObjectId) g l d :
  (∀ x, _id (g x) = _id x) →
  first_of (λ x, _id x = i) l = Some d →
  first_of (λ x, _id x = i) (update_first (λ x, _id x = i) g l) = Some (g d).
Proof.
  intros Hg. induction l as [|x l IH]; [done|].
  rewrite first_of_cons. simpl. destruct (decide (_id x = i)) as [Hx|Hx].
  - intros [= ->]. rewrite first_of_cons.
    by rewrite decide_True by (by rewrite Hg).
  - intros Hd. rewrite first_of_cons, decide_False by done. by apply IH.
Qed.

End collection_facts.

Section sorting_facts.
Context {T : Type} (key : BaseDoc T → Z) (d : direction).

Global Instance sort_le_trans : Transitive (sort_le key d).
Proof. intros x y z. destruct d; simpl; lia. Qed.

Global Instance sort_le_total : Total (sort_le key d).
Proof. intros x y. destruct d; simpl; lia. Qed.

Lemma readMany_sorted (P : BaseDoc T → Prop) `{∀ x, Decision (P x)} c :
  StronglySorted (sort_le key d) (readMany P (Some (key, d)) c).
Proof. apply StronglySorted_merge_sort; apply _. Qed.

Lemma readMany_Permutation (P : BaseDoc T → Prop) `{∀ x, Decision (P x)} c :
  readMany P (Some (key, d)) c ≡ₚ filter P (docs c).
Proof. apply merge_sort_Permutation. Qed.

End sorting_facts.

(** ** Texting *)

(** The messages one user sent to another. *)
Lemma between_distinct (a b : ObjectId) (l : list (BaseDoc TextingConcept.MessageDoc)) :
  a ≠ b →
  filter (TextingConcept.between a b) l
  ≡ₚ filter (λ m, TextingConcept.sender_of m = a
                  ∧ TextingConcept.recipient_of m = b) l
     ++ filter (λ m, TextingConcept.sender_of m = b
                     ∧ TextingConcept.recipient_of m = a) l.
Proof.
  intros Hab. induction l as [|m l IH]; [done|].
  unfold TextingConcept.between in *.
  destruct (decide (TextingConcept.sender_of m = a
                    ∧ TextingConcept.recipient_of m = b)) as [H1|H1].
  - rewrite filter_cons_True by auto.
    rewrite (filter_cons_True (λ m, _ = a ∧ _ = b)) by done.
    rewrite (filter_cons_False (λ m, _ = b ∧ _ = a)) by (intros [??]; destruct H1; congruence).
    simpl. by rewrite IH.
  - destruct (decide (TextingConcept.sender_of m = b
                      ∧ TextingConcept.recipient_of m = a)) as [H2|H2].
    + rewrite filter_cons_True by auto.
      rewrite (filter_cons_False (λ m, _ = a ∧ _ = b)) by done.
      rewrite (filter_cons_True (λ m, _ = b ∧ _ = a)) by done.
      rewrite IH. by rewrite Permutation_middle.
    + rewrite filter_cons_False by (intros [|]; done).
      rewrite (filter_cons_False (λ m, _ = a ∧ _ = b)) by done.
      by rewrite (filter_cons_False (λ m, _ = b ∧ _ = a)) by done.
Qed.

(** C5: for every pair of users [a], [b] and every collection,
    [getMessagesBetweenUsers a b] returns, up to order, exactly the
    stored messages that were sent from [a] to [b] or from [b] to [a]
    (for distinct users: the messages from [a] to [b] together with
    those from [b] to [a]), and the sequence it returns is sorted by
    ascending timestamp. *)
Theorem getMessagesBetweenUsers_transcript
    (a b : ObjectId) (c : TextingConcept.messages) :
  TextingConcept.getMessagesBetweenUsers a b c
    ≡ₚ filter (TextingConcept.between a b) (docs c)
  ∧ (a ≠ b →
     TextingConcept.getMessagesBetweenUsers a b c
     ≡ₚ filter (λ m, TextingConcept.sender_of m = a
                     ∧ TextingConcept.recipient_of m = b) (docs c)
        ++ filter (λ m, TextingConcept.sender_of m = b
                        ∧ TextingConcept.recipient_of m = a) (docs c))
  ∧ StronglySorted
      (λ x y, TextingConcept.timestamp_of x ≤ TextingConcept.timestamp_of y)
      (TextingConcept.getMessagesBetweenUsers a b c).
Proof.
  unfold TextingConcept.getMessagesBetweenUsers. split_and!.
  - apply readMany_Permutation.
  - intros Hab. rewrite readMany_Permutation. by apply between_distinct.
  - apply (readMany_sorted TextingConcept.timestamp_of Ascending).
Qed.

(** C8: for every user [u] and every collection,
    [getMessagesForUser u] returns, up to order, exactly the stored
    messages whose recipient is [u], and the sequence it returns is
    sorted by descending timestamp. *)
Theorem getMessagesForUser_inbox (u : ObjectId) (c : TextingConcept.messages) :
  TextingConcept.getMessagesForUser u c
    ≡ₚ filter (λ m, TextingConcept.recipient_of m = u) (docs c)
  ∧ StronglySorted
      (λ x y, TextingConcept.timestamp_of y ≤ TextingConcept.timestamp_of x)
      (TextingConcept.getMessagesForUser u c).
Proof.
  unfold TextingConcept.getMessagesForUser. split.
  - apply readMany_Permutation.
  - apply (readMany_sorted TextingConcept.timestamp_of Descending).
Qed.

(** C10: for every identifier and every collection, [deleteMessage]
    answers with the success message; it removes the first message with
    that identifier when there is one, and when there is none it leaves
    the collection as it is and answers the same. *)
Theorem deleteMessage_always_succeeds
    (i : ObjectId) (c : TextingConcept.messages) :
  (TextingConcept.deleteMessage i c).1 = Ok "Message deleted successfully!"
  ∧ (Forall (λ m, _id m ≠ i) (docs c) →
     TextingConcept.deleteMessage i c
     = (Ok "Message deleted successfully!", c))
  ∧ (Exists (λ m, _id m = i) (docs c) →
     S (length (docs (TextingConcept.deleteMessage i c).2)) = length (docs c)).
Proof.
  unfold TextingConcept.deleteMessage, deleteOne. simpl. split_and!.
  - done.
  - intros Hno. rewrite delete_first_none by done. by destruct c.
  - intros Hex. by apply delete_first_length.
Qed.

(** Users 1 and 2 exchange three messages, at times 5, 3 and 9, and
    user 2 writes to user 3 at time 4. *)
Lemma getMessagesBetweenUsers_transcript_witness :
  let c :=
    (TextingConcept.sendMessage 1%N 2%N "z" 9
       (TextingConcept.sendMessage 2%N 3%N "x" 4
          (TextingConcept.sendMessage 2%N 1%N "yo" 3
             (TextingConcept.sendMessage 1%N 2%N "hi" 5
                DocCollection.empty).2).2).2).2 in
  1%N ≠ 2%N
  ∧ TextingConcept.getMessagesBetweenUsers 1%N 2%N c
    ≡ₚ filter (λ m, TextingConcept.sender_of m = 1%N
                    ∧ TextingConcept.recipient_of m = 2%N) (docs c)
       ++ filter (λ m, TextingConcept.sender_of m = 2%N
                       ∧ TextingConcept.recipient_of m = 1%N) (docs c).
Proof.
  intros c.
  assert (Hne : 1%N ≠ 2%N) by done.
  split; [exact Hne|].
  exact (proj1 (proj2 (getMessagesBetweenUsers_transcript 1%N 2%N c)) Hne).
Defined.

Example getMessagesBetweenUsers_run :
  let c :=
    (TextingConcept.sendMessage 1%N 2%N "z" 9
       (TextingConcept.sendMessage 2%N 3%N "x" 4
          (TextingConcept.sendMessage 2%N 1%N "yo" 3
             (TextingConcept.sendMessage 1%N 2%N "hi" 5
                DocCollection.empty).2).2).2).2 in
  (λ m, (_id m, TextingConcept.timestamp_of m))
    <$> TextingConcept.getMessagesBetweenUsers 1%N 2%N c
  = [(1%N, 3); (0%N, 5); (3%N, 9)]
  ∧ (λ m, (_id m, TextingConcept.timestamp_of m))
      <$> TextingConcept.getMessagesForUser 2%N c
    = [(3%N, 9); (0%N, 5)].
Proof. by vm_compute. Qed.

(** One message, with identifier 0, is stored; none has identifier 7. *)
Lemma deleteMessage_always_succeeds_witness :
  let c := (TextingConcept.sendMessage 1%N 2%N "hi" 5 DocCollection.empty).2 in
  TextingConcept.deleteMessage 7%N c = (Ok "Message deleted successfully!", c)
  ∧ S (length (docs (TextingConcept.deleteMessage 0%N c).2)) = length (docs c).
Proof.
  intros c.
  assert (Hno : Forall (λ m : BaseDoc TextingConcept.MessageDoc, _id m ≠ 7%N)
                  (docs c)).
  { by repeat constructor. }
  assert (Hex : Exists (λ m : BaseDoc TextingConcept.MessageDoc, _id m = 0%N)
                  (docs c)).
  { by apply Exists_cons_hd. }
  split.
  - exact (proj1 (proj2 (deleteMessage_always_succeeds 7%N c)) Hno).
  - exact (proj2 (proj2 (deleteMessage_always_succeeds 0%N c)) Hex).
Defined.

(** ** Video calling *)

Lemma startCall_other (c r : ObjectId) (now : Date)
    (calls : VideoCallingConcept.activeCalls) :
  c ≠ r →
  let call :=
    mkDoc (nextId calls) now now
      {| VideoCallingConcept.caller := c; VideoCallingConcept.recipient := r;
         VideoCallingConcept.startTime := now;
         VideoCallingConcept.endTime := None;
         VideoCallingConcept.status := None |} in
  ∃ answer,
    VideoCallingConcept.startCall c r now calls
    = (Ok ("Call started successfully!", answer),
       mkColl (docs calls ++ [call]) (N.succ (nextId calls))).
Proof.
  intros Hcr. unfold VideoCallingConcept.startCall.
  rewrite decide_False by done. simpl. by eexists.
Qed.

(** C3: for every user [a], [startCall a a] throws a BadValues error
    and leaves the collection as it is; for every caller and recipient
    that differ it succeeds and appends one call record, from the
    caller to the recipient, whose start time is the time of the call
    and which has no end time. *)
Theorem startCall_self_or_other (c r : ObjectId) (now : Date)
    (calls : VideoCallingConcept.activeCalls) :
  VideoCallingConcept.startCall c c now calls
  = (Throw (BadValuesError "Caller and recipient cannot be the same user."),
     calls)
  ∧ (c ≠ r →
     is_Ok (VideoCallingConcept.startCall c r now calls).1 = true
     ∧ ∃ call,
         docs (VideoCallingConcept.startCall c r now calls).2
         = docs calls ++ [call]
         ∧ VideoCallingConcept.caller_of call = c
         ∧ VideoCallingConcept.recipient_of call = r
         ∧ VideoCallingConcept.startTime (fields call) = now
         ∧ VideoCallingConcept.endTime_of call = None).
Proof.
  split.
  - unfold VideoCallingConcept.startCall. by rewrite decide_True.
  - intros Hcr. destruct (startCall_other c r now calls Hcr) as [answer ->].
    split; [done|]. by eexists.
Qed.

Lemma startCall_self_or_other_witness :
  1%N ≠ 2%N
  ∧ is_Ok (VideoCallingConcept.startCall 1%N 2%N 10 DocCollection.empty).1
    = true.
Proof.
  assert (Hne : 1%N ≠ 2%N) by done.
  split; [exact Hne|].
  exact (proj1 (proj2 (startCall_self_or_other 1%N 2%N 10 DocCollection.empty)
                  Hne)).
Defined.

(** C2, as the code has it: [startCall] checks nothing but that the
    caller and the recipient differ.  When they differ and one of them
    already has a call record that has not ended, it still succeeds and
    appends a second record that has not ended and involves both. *)
Theorem startCall_ignores_overlap (c r : ObjectId) (now : Date)
    (calls : VideoCallingConcept.activeCalls) :
  c ≠ r →
  Exists (λ d, VideoCallingConcept.involves c d
               ∨ VideoCallingConcept.involves r d) (docs calls) →
  is_Ok (VideoCallingConcept.startCall c r now calls).1 = true
  ∧ ∃ second,
      docs (VideoCallingConcept.startCall c r now calls).2
      = docs calls ++ [second]
      ∧ VideoCallingConcept.involves c second
      ∧ VideoCallingConcept.involves r second.
Proof.
  intros Hcr _. destruct (startCall_other c r now calls Hcr) as [answer ->].
  split; [done|]. eexists. split; [done|].
  unfold VideoCallingConcept.involves. simpl. auto.
Qed.

(** The collection in which user 1 has called user 2 at time 10. *)
Lemma startCall_ignores_overlap_witness :
  let calls := (VideoCallingConcept.startCall 1%N 2%N 10 DocCollection.empty).2 in
  1%N ≠ 3%N
  ∧ Exists (λ d, VideoCallingConcept.involves 1%N d
                 ∨ VideoCallingConcept.involves 3%N d) (docs calls)
  ∧ is_Ok (VideoCallingConcept.startCall 1%N 3%N 11 calls).1 = true.
Proof.
  intros calls.
  assert (Hne : 1%N ≠ 3%N) by done.
  assert (Hex : Exists (λ d, VideoCallingConcept.involves 1%N d
                             ∨ VideoCallingConcept.involves 3%N d) (docs calls)).
  { apply Exists_cons_hd. left. split; [by left|done]. }
  split_and!; [exact Hne|exact Hex|].
  exact (proj1 (startCall_ignores_overlap 1%N 3%N 11 calls Hne Hex)).
Defined.

(** C2, as the claim has it, fails: user 1 has a call to user 2 that
    has not ended, and [startCall 1 3] still creates a second call
    record, so that two records that have not ended involve user 1. *)
Lemma startCall_overlap_counterexample :
  let calls := (VideoCallingConcept.startCall 1%N 2%N 10 DocCollection.empty).2 in
  let calls' := (VideoCallingConcept.startCall 1%N 3%N 11 calls).2 in
  length (filter (VideoCallingConcept.involves 1%N) (docs calls)) = 1%nat
  ∧ is_Ok (VideoCallingConcept.startCall 1%N 3%N 11 calls).1 = true
  ∧ length (docs calls') = 2%nat
  ∧ length (filter (VideoCallingConcept.involves 1%N) (docs calls')) = 2%nat.
Proof. by vm_compute. Qed.

Lemma update_first_keeps_others {T : Type} (i : ObjectId)
    (g : BaseDoc T → BaseDoc T) (l : list (BaseDoc T)) :
  (∀ x, _id (g x) = _id x) →
  filter (λ x, _id x ≠ i) (update_first (λ x, _id x = i) g l)
  = filter (λ x, _id x ≠ i) l.
Proof.
  intros Hg. induction l as [|x l IH]; [done|]. simpl.
  destruct (decide (_id x = i)) as [Hx|Hx].
  - by rewrite !filter_cons_False by (rewrite ?Hg; auto).
  - by rewrite !filter_cons_True, IH by done.
Qed.

Lemma endCall_running (callId : ObjectId) (now : Date)
    (calls : VideoCallingConcept.activeCalls) call :
  readOne (λ d, _id d = callId) calls = Some call →
  VideoCallingConcept.endTime_of call = None →
  VideoCallingConcept.endCall callId now calls
  = (Ok "Call ended successfully!",
     partialUpdateOne (λ d, _id d = callId)
       (VideoCallingConcept.set_endTime now) now calls).
Proof.
  intros Hread Hend. unfold VideoCallingConcept.endCall.
  by rewrite Hread, Hend.
Qed.

Lemma endCall_ended (callId : ObjectId) (now : Date)
    (calls : VideoCallingConcept.activeCalls) call t :
  readOne (λ d, _id d = callId) calls = Some call →
  VideoCallingConcept.endTime_of call = Some t →
  VideoCallingConcept.endCall callId now calls
  = (Throw (BadValuesError "Call has already ended."), calls).
Proof.
  intros Hread Hend. unfold VideoCallingConcept.endCall.
  by rewrite Hread, Hend.
Qed.

(** C4: [endCall callId] throws NotFound, and changes nothing, when no
    call has that identifier; when the call with that identifier has no
    end time, it succeeds and gives that call the time of the request
    as its end time, leaving the other calls as they are; when the call
    already has an end time, it throws and changes nothing.  Hence a
    second [endCall] on the same identifier, after one that succeeded,
    throws. *)
Theorem endCall_once (callId : ObjectId) (now : Date)
    (calls : VideoCallingConcept.activeCalls) :
  (Forall (λ d, _id d ≠ callId) (docs calls) →
   VideoCallingConcept.endCall callId now calls
   = (Throw (NotFoundError "Call not found."), calls))
  ∧ (∀ call,
       readOne (λ d, _id d = callId) calls = Some call →
       VideoCallingConcept.endTime_of call = None →
       let calls' := (VideoCallingConcept.endCall callId now calls).2 in
       (VideoCallingConcept.endCall callId now calls).1
       = Ok "Call ended successfully!"
       ∧ readOne (λ d, _id d = callId) calls'
         = Some (mkDoc (_id call) (dateCreated call) now
                   (VideoCallingConcept.set_endTime now (fields call)))
       ∧ length (docs calls') = length (docs calls)
       ∧ filter (λ d, _id d ≠ callId) (docs calls')
         = filter (λ d, _id d ≠ callId) (docs calls))
  ∧ (∀ call t,
       readOne (λ d, _id d = callId) calls = Some call →
       VideoCallingConcept.endTime_of call = Some t →
       VideoCallingConcept.endCall callId now calls
       = (Throw (BadValuesError "Call has already ended."), calls))
  ∧ (∀ later,
       is_Ok (VideoCallingConcept.endCall callId now calls).1 = true →
       let calls' := (VideoCallingConcept.endCall callId now calls).2 in
       VideoCallingConcept.endCall callId later calls'
       = (Throw (BadValuesError "Call has already ended."), calls')).
Proof.
  assert (Hdone : ∀ call,
    readOne (λ d, _id d = callId) calls = Some call →
    readOne (λ d, _id d = callId)
      (partialUpdateOne (λ d, _id d = callId)
         (VideoCallingConcept.set_endTime now) now calls)
    = Some (mkDoc (_id call) (dateCreated call) now
              (VideoCallingConcept.set_endTime now (fields call)))).
  { intros call Hread. unfold readOne, partialUpdateOne in *. simpl.
    by apply (update_first_by_id callId
                (λ d, mkDoc (_id d) (dateCreated d) now
                        (VideoCallingConcept.set_endTime now (fields d)))). }
  split_and!.
  - intros Hno. unfold VideoCallingConcept.endCall, readOne.
    by rewrite (proj2 (first_of_None _ _) Hno).
  - intros call Hread Hend. rewrite (endCall_running _ _ _ _ Hread Hend).
    simpl. split_and!; [done|by apply Hdone| |].
    + apply update_first_length.
    + by apply update_first_keeps_others.
  - intros call t. apply endCall_ended.
  - intros later Hok.
    destruct (readOne (λ d, _id d = callId) calls) as [call|] eqn:Hread;
      [|by unfold VideoCallingConcept.endCall in Hok; rewrite Hread in Hok].
    destruct (VideoCallingConcept.endTime_of call) as [t|] eqn:Hend;
      [by rewrite (endCall_ended _ _ _ _ _ Hread Hend) in Hok|].
    rewrite (endCall_running _ _ _ _ Hread Hend). simpl.
    by apply (endCall_ended _ _ _ _ now (Hdone _ eq_refl)).
Qed.

(** The call that user 1 started to user 2 at time 10 has identifier 0;
    it is ended at time 20 and then once more at time 30, and no call
    has identifier 7. *)
Lemma endCall_once_witness :
  let calls := (VideoCallingConcept.startCall 1%N 2%N 10 DocCollection.empty).2 in
  let calls' := (VideoCallingConcept.endCall 0%N 20 calls).2 in
  VideoCallingConcept.endCall 7%N 20 calls
  = (Throw (NotFoundError "Call not found."), calls)
  ∧ is_Ok (VideoCallingConcept.endCall 0%N 20 calls).1 = true
  ∧ VideoCallingConcept.endCall 0%N 30 calls'
    = (Throw (BadValuesError "Call has already ended."), calls').
Proof.
  intros calls calls'.
  assert (Hno : Forall (λ d : BaseDoc VideoCallingConcept.CallDoc, _id d ≠ 7%N)
                  (docs calls)).
  { by repeat constructor. }
  assert (Hok : is_Ok (VideoCallingConcept.endCall 0%N 20 calls).1 = true).
  { reflexivity. }
  split_and!.
  - exact (proj1 (endCall_once 7%N 20 calls) Hno).
  - exact Hok.
  - exact (proj2 (proj2 (proj2 (endCall_once 0%N 20 calls))) 30 Hok).
Defined.

(** ** Mood mapping *)

(** C7: [removeMood user friend] throws NotFound exactly when it
    deleted no record, which is when the collection holds no record for
    the directed pair; when the collection holds one, it succeeds and
    deletes one record of that pair and nothing else. *)
Theorem removeMood_deleted_or_NotFound
    (u f : ObjectId) (c : MoodMappingConcept.moods) :
  let c' := (MoodMappingConcept.removeMood u f c).2 in
  (Exists (MoodMappingConcept.pair u f) (docs c) →
   (MoodMappingConcept.removeMood u f c).1 = Ok "Mood removed successfully!"
   ∧ S (length (filter (MoodMappingConcept.pair u f) (docs c')))
     = length (filter (MoodMappingConcept.pair u f) (docs c))
   ∧ filter (λ d, ¬ MoodMappingConcept.pair u f d) (docs c')
     = filter (λ d, ¬ MoodMappingConcept.pair u f d) (docs c))
  ∧ (Forall (λ d, ¬ MoodMappingConcept.pair u f d) (docs c) →
     MoodMappingConcept.removeMood u f c
     = (Throw (NotFoundError "No mood was set for this user."), c))
  ∧ ((MoodMappingConcept.removeMood u f c).1
     = Throw (NotFoundError "No mood was set for this user.")
     ↔ docs c' = docs c).
Proof.
  unfold MoodMappingConcept.removeMood, deleteOne, readOne. simpl.
  destruct (first_of (MoodMappingConcept.pair u f) (docs c)) as [d|] eqn:Hfirst;
    simpl.
  - assert (Hex : Exists (MoodMappingConcept.pair u f) (docs c)).
    { apply (first_of_is_Some (MoodMappingConcept.pair u f)).
      by rewrite Hfirst. }
    split_and!.
    + intros _. split_and!; [done| |].
      * by apply delete_first_filter_same.
      * apply (delete_first_filter_other (MoodMappingConcept.pair u f)
                 (λ d, ¬ MoodMappingConcept.pair u f d)). auto.
    + intros Hno. by apply Forall_Exists_neg in Hno.
    + split; [done|]. intros Heq.
      pose proof (delete_first_length (MoodMappingConcept.pair u f) _ Hex)
        as Hlen.
      rewrite Heq in Hlen. lia.
  - assert (Hno : Forall (λ d, ¬ MoodMappingConcept.pair u f d) (docs c)).
    { by apply (first_of_None (MoodMappingConcept.pair u f)). }
    rewrite delete_first_none by done. split_and!.
    + intros Hex. by apply Forall_Exists_neg in Hno.
    + intros _. by destruct c.
    + done.
Qed.

(** User 1 has set a mood for user 2, and none for user 3. *)
Lemma removeMood_deleted_or_NotFound_witness :
  let c := (MoodMappingConcept.setMood MoodMappingConcept.emoticon
              1%N 2%N "😀" 10 DocCollection.empty).2 in
  (MoodMappingConcept.removeMood 1%N 2%N c).1 = Ok "Mood removed successfully!"
  ∧ MoodMappingConcept.removeMood 1%N 3%N c
    = (Throw (NotFoundError "No mood was set for this user."), c).
Proof.
  intros c.
  assert (Hex : Exists (MoodMappingConcept.pair 1%N 2%N) (docs c)).
  { by apply Exists_cons_hd. }
  assert (Hno : Forall (λ d, ¬ MoodMappingConcept.pair 1%N 3%N d) (docs c)).
  { repeat constructor. by intros [_ [=]]. }
  split.
  - exact (proj1 (proj1 (removeMood_deleted_or_NotFound 1%N 2%N c) Hex)).
  - exact (proj1 (proj2 (removeMood_deleted_or_NotFound 1%N 3%N c)) Hno).
Defined.

Section mood_facts.
Variable single_emoji : string → bool.

(** What [setMood] does to the collection, case by case. *)
Lemma setMood_collection (u f : ObjectId) (m : string) (now : Date)
    (c : MoodMappingConcept.moods) :
  let c' := (MoodMappingConcept.setMood single_emoji u f m now c).2 in
  (bool_decide (m = "") || negb (single_emoji m) = true ∧ c' = c)
  ∨ (bool_decide (m = "") || negb (single_emoji m) = false
     ∧ Exists (λ d, MoodMappingConcept.user_of d = u) (docs c)
     ∧ c' = partialUpdateOne (MoodMappingConcept.pair u f)
              (MoodMappingConcept.set_mood m) now c)
  ∨ (bool_decide (m = "") || negb (single_emoji m) = false
     ∧ Forall (λ d, MoodMappingConcept.user_of d ≠ u) (docs c)
     ∧ docs c'
       = docs c ++ [mkDoc (nextId c) now now
                      {| MoodMappingConcept.user := u;
                         MoodMappingConcept.friend := f;
                         MoodMappingConcept.mood := m |}]).
Proof.
  unfold MoodMappingConcept.setMood.
  destruct (bool_decide (m = "") || negb (single_emoji m)); [by left|].
  right. unfold readOne.
  destruct (first_of (λ d, MoodMappingConcept.user_of d = u) (docs c))
    as [d|] eqn:Hfirst.
  - left. split_and!; [done| |done].
    apply (first_of_is_Some (λ d, MoodMappingConcept.user_of d = u)).
    by rewrite Hfirst.
  - right. split_and!; [done| |done].
    by apply (first_of_None (λ d, MoodMappingConcept.user_of d = u)).
Qed.

Lemma setMood_keeps_one_per_user (u f : ObjectId) (m : string) (now : Date)
    (c : MoodMappingConcept.moods) (v : ObjectId) :
  (length (filter (λ d, MoodMappingConcept.user_of d = v) (docs c)) ≤ 1)%nat →
  (length (filter (λ d, MoodMappingConcept.user_of d = v)
             (docs (MoodMappingConcept.setMood single_emoji u f m now c).2))
   ≤ 1)%nat.
Proof.
  intros Hone.
  destruct (setMood_collection u f m now c)
    as [[_ ->]|[(_ & _ & ->)|(_ & Hnone & ->)]]; [done| |].
  - unfold partialUpdateOne. simpl.
    by rewrite update_first_filter_length.
  - rewrite filter_app, length_app.
    destruct (decide (v = u)) as [->|Hvu].
    + rewrite (filter_none (λ d, MoodMappingConcept.user_of d = u)) by done.
      rewrite filter_cons_True by done. simpl. lia.
    + rewrite (filter_cons_False _ _ [])
        by (unfold MoodMappingConcept.user_of; simpl; congruence).
      simpl. lia.
Qed.

End mood_facts.

(** C9: in every collection that the methods of the concept can
    produce from the empty one, each user has at most one mood
    document, whatever the friends; and [setMood], on any collection,
    adds a document exactly when the mood is valid and the user has no
    mood document for any friend, and otherwise leaves the number of
    documents as it is. *)
Theorem reachable_one_mood_per_user (single_emoji : string → bool)
    (c : MoodMappingConcept.moods) :
  MoodMappingConcept.reachable single_emoji c →
  (∀ u, (length (filter (λ d, MoodMappingConcept.user_of d = u) (docs c))
         ≤ 1)%nat)
  ∧ (∀ u f m now,
       let c' := (MoodMappingConcept.setMood single_emoji u f m now c).2 in
       (length (docs c') = S (length (docs c))
        ↔ bool_decide (m = "") || negb (single_emoji m) = false
          ∧ Forall (λ d, MoodMappingConcept.user_of d ≠ u) (docs c))
       ∧ (length (docs c') = length (docs c)
          ∨ length (docs c') = S (length (docs c)))).
Proof.
  intros Hreach. split.
  - induction Hreach as [|u f m now c _ IH|u f c _ IH]; intros v.
    + simpl. lia.
    + by apply setMood_keeps_one_per_user.
    + unfold MoodMappingConcept.removeMood, deleteOne. simpl.
      etrans; [|apply (IH v)].
      destruct (decide _); simpl; apply delete_first_filter_le; apply _.
  - intros u f m now.
    destruct (setMood_collection single_emoji u f m now c)
      as [[Hbad ->]|[(Hok & Hex & ->)|(Hok & Hnone & Hdocs)]]; simpl.
    + split; [|by left]. split; [lia|]. intros [? _]. congruence.
    + unfold partialUpdateOne. simpl. rewrite update_first_length.
      split; [|by left]. split; [lia|]. intros [_ Hnone].
      by apply Forall_Exists_neg in Hnone.
    + rewrite Hdocs, length_app. simpl. split; [|right; lia].
      split; [done|lia].
Qed.

(** The collection after user 1 has set a mood for user 2 and then for
    user 3. *)
Lemma reachable_one_mood_per_user_witness :
  let c := (MoodMappingConcept.setMood MoodMappingConcept.emoticon
              1%N 3%N "😎" 20
              (MoodMappingConcept.setMood MoodMappingConcept.emoticon
                 1%N 2%N "😀" 10 DocCollection.empty).2).2 in
  MoodMappingConcept.reachable MoodMappingConcept.emoticon c
  ∧ (length (filter (λ d, MoodMappingConcept.user_of d = 1%N) (docs c))
     ≤ 1)%nat.
Proof.
  intros c.
  assert (Hreach : MoodMappingConcept.reachable MoodMappingConcept.emoticon c).
  { do 2 apply MoodMappingConcept.reach_setMood.
    apply MoodMappingConcept.reach_empty. }
  split; [exact Hreach|].
  exact (proj1 (reachable_one_mood_per_user MoodMappingConcept.emoticon c Hreach)
           1%N).
Defined.

(** C6, on the code: user 1 has a mood document for user 2; setting a
    mood for user 3 twice answers "updated" both times, with no
    document to show, and the collection holds no record for the pair
    (1, 3) afterwards: it is as it was before the two calls. *)
Theorem setMood_twice_for_second_friend :
  let c := (MoodMappingConcept.setMood MoodMappingConcept.emoticon
              1%N 2%N "😀" 10 DocCollection.empty).2 in
  let first := MoodMappingConcept.setMood MoodMappingConcept.emoticon
                 1%N 3%N "😎" 20 c in
  let second := MoodMappingConcept.setMood MoodMappingConcept.emoticon
                  1%N 3%N "😂" 30 first.2 in
  first.1 = Ok ("Mood updated successfully!", None)
  ∧ second.1 = Ok ("Mood updated successfully!", None)
  ∧ filter (MoodMappingConcept.pair 1%N 3%N) (docs second.2) = []
  ∧ second.2 = c.
Proof. by vm_compute. Qed.

(** For a user without any mood document the two calls do leave one
    record, with the second value. *)
Example setMood_twice_from_empty :
  let first := MoodMappingConcept.setMood MoodMappingConcept.emoticon
                 1%N 3%N "😎" 20 DocCollection.empty in
  let second := MoodMappingConcept.setMood MoodMappingConcept.emoticon
                  1%N 3%N "😂" 30 first.2 in
  MoodMappingConcept.mood_of
    <$> filter (MoodMappingConcept.pair 1%N 3%N) (docs second.2) = ["😂"].
Proof. by vm_compute. Qed.

(** ** The call routes *)

(** The three call routes that go through a method the class does not
    define throw a [TypeError] for every logged-in user, whatever the
    collections hold, and leave the collections as they are. *)
Lemma call_routes_not_a_function (userId : ObjectId) (recipient : string)
    (now : Date) (app : Routes.App) :
  (is_TypeError (Routes.getCallStatus (Some userId) app).1 = true
   ∧ (Routes.getCallStatus (Some userId) app).2 = app)
  ∧ (is_TypeError (Routes.acceptCall (Some userId) now app).1 = true
     ∧ (Routes.acceptCall (Some userId) now app).2 = app)
  ∧ (is_TypeError (Routes.endCall (Some userId) recipient now app).1 = true
     ∧ (Routes.endCall (Some userId) recipient now app).2 = app).
Proof. done. Qed.

(** C1, on the code: alice and bob are friends and alice calls bob.
    The call request succeeds and stores one record from alice to bob
    without end time.  The status check for bob then throws a
    [TypeError] instead of answering "pending" with alice as the
    caller, and so does the status check for alice: the route calls
    [getCallStatusForUser], which the class does not define.  The
    requests of bob to accept and to end the call throw in the same
    way and write nothing, so the record stays without end time, and
    no status check ever answers "pending", "active" or that there is
    no call. *)
Theorem call_scenario_routes_throw :
  let record :=
    mkDoc 0%N 10 10
      {| VideoCallingConcept.caller := Routes.alice;
         VideoCallingConcept.recipient := Routes.bob;
         VideoCallingConcept.startTime := 10;
         VideoCallingConcept.endTime := None;
         VideoCallingConcept.status := None |} in
  is_Ok (Routes.startCall (Some Routes.alice) "bob" 10
           Routes.friends_alice_bob).1 = true
  ∧ docs (Routes.VideoCalling Routes.after_start) = [record]
  ∧ is_TypeError (Routes.getCallStatus (Some Routes.bob) Routes.after_start).1
    = true
  ∧ is_TypeError (Routes.getCallStatus (Some Routes.alice) Routes.after_start).1
    = true
  ∧ is_TypeError (Routes.acceptCall (Some Routes.bob) 20 Routes.after_start).1
    = true
  ∧ Routes.after_accept = Routes.after_start
  ∧ is_TypeError (Routes.getCallStatus (Some Routes.bob) Routes.after_accept).1
    = true
  ∧ is_TypeError
      (Routes.getCallStatus (Some Routes.alice) Routes.after_accept).1 = true
  ∧ is_TypeError
      (Routes.endCall (Some Routes.bob) "alice" 30 Routes.after_accept).1 = true
  ∧ Routes.after_end = Routes.after_start
  ∧ is_TypeError (Routes.getCallStatus (Some Routes.bob) Routes.after_end).1
    = true
  ∧ is_TypeError (Routes.getCallStatus (Some Routes.alice) Routes.after_end).1
    = true.
Proof. by vm_compute. Qed.

(** * Further properties of the concepts *)

(** ** More on the document store *)

Section lookup_facts.
Context {T : Type}.
Implicit Types (l : list (BaseDoc T)) (P Q : BaseDoc T → Prop).

Lemma first_of_app P `{∀ d, Decision (P d)} l1 l2 :
  first_of P (l1 ++ l2)
  = match first_of P l1 with Some d => Some d | None => first_of P l2 end.
Proof.
  induction l1 as [|d l1 IH]; [done|]. simpl.
  rewrite !first_of_cons. by destruct (decide (P d)).
Qed.

Lemma first_of_iff P `{∀ d, Decision (P d)} Q `{∀ d, Decision (Q d)} l :
  (∀ d, P d ↔ Q d) → first_of P l = first_of Q l.
Proof.
  intros HPQ. induction l as [|d l IH]; [done|].
  rewrite !first_of_cons, IH.
  destruct (decide (P d)) as [HP|HP], (decide (Q d)) as [HQ|HQ];
    try done; by apply HPQ in HP || apply HPQ in HQ.
Qed.

Lemma first_of_update_same P `{∀ d, Decision (P d)} g l :
  (∀ x, P x → P (g x)) →
  first_of P (update_first P g l) = g <$> first_of P l.
Proof.
  intros Hg. induction l as [|d l IH]; [done|]. simpl.
  rewrite first_of_cons. destruct (decide (P d)) as [HP|HP].
  - by rewrite first_of_cons, decide_True by auto.
  - by rewrite first_of_cons, decide_False.
Qed.

Lemma first_of_update_other P `{∀ d, Decision (P d)}
    Q `{∀ d, Decision (Q d)} g l :
  (∀ x, P x → ¬ Q x ∧ ¬ Q (g x)) →
  first_of Q (update_first P g l) = first_of Q l.
Proof.
  intros Hg. induction l as [|d l IH]; [done|]. simpl.
  destruct (decide (P d)) as [HP|HP].
  - destruct (Hg d HP). by rewrite !first_of_cons, !decide_False.
  - by rewrite !first_of_cons, IH.
Qed.

Lemma first_of_delete_other P `{∀ d, Decision (P d)}
    Q `{∀ d, Decision (Q d)} l :
  (∀ x, P x → ¬ Q x) →
  first_of Q (delete_first P l) = first_of Q l.
Proof.
  intros HPQ. induction l as [|d l IH]; [done|]. simpl.
  destruct (decide (P d)) as [HP|HP].
  - by rewrite first_of_cons, decide_False by auto.
  - by rewrite !first_of_cons, IH.
Qed.

Lemma first_of_delete_same P `{∀ d, Decision (P d)} l :
  (length (filter P l) ≤ 1)%nat → first_of P (delete_first P l) = None.
Proof.
  induction l as [|d l IH]; [done|]. simpl.
  destruct (decide (P d)) as [HP|HP].
  - rewrite filter_cons_True by done. simpl. intros Hlen.
    apply (first_of_None P). apply (Forall_forall (λ d, ¬ P d)).
    intros x Hx HPx.
    assert (Hin : x ∈ filter P l) by by apply list_elem_of_filter.
    destruct (filter P l); [by apply elem_of_nil in Hin|simpl in Hlen; lia].
  - rewrite filter_cons_False by done. intros Hlen.
    by rewrite first_of_cons, decide_False, IH.
Qed.

Lemma filter_all P `{∀ d, Decision (P d)} l :
  Forall P l → filter P l = l.
Proof.
  induction 1 as [|d l ?? IH]; [done|]. by rewrite filter_cons_True, IH.
Qed.

Lemma delete_first_by_id (i : ObjectId) l :
  NoDup (_id <$> l) →
  delete_first (λ d, _id d = i) l = filter (λ d, _id d ≠ i) l.
Proof.
  induction l as [|d l IH]; [done|]. simpl.
  intros [Hd Hl]%NoDup_cons. destruct (decide (_id d = i)) as [Hi|Hi].
  - rewrite filter_cons_False by auto.
    symmetry. apply (filter_all (λ d, _id d ≠ i)), Forall_forall.
    intros y Hy Hyi. apply Hd, list_elem_of_fmap.
    exists y. split; [congruence|done].
  - by rewrite filter_cons_True, IH.
Qed.

End lookup_facts.

(** ** More on texting *)

(** The document that [sendMessage] stores. *)
Lemma sendMessage_stored (s r : ObjectId) (text : string) (now : Date)
    (c : TextingConcept.messages) :
  text ≠ "" →
  let new :=
    mkDoc (nextId c) now now
      {| TextingConcept.sender := s; TextingConcept.recipient := r;
         TextingConcept.content := text; TextingConcept.timestamp := now |} in
  TextingConcept.sendMessage s r text now c
  = (Ok ("Message sent successfully!",
         readOne (λ d, _id d = nextId c)
           (mkColl (docs c ++ [new]) (N.succ (nextId c)))),
     mkColl (docs c ++ [new]) (N.succ (nextId c))).
Proof.
  intros Htext. unfold TextingConcept.sendMessage.
  by rewrite decide_False.
Qed.

(** X1: [sendMessage] with empty content throws BadValues and stores
    nothing; with any other content it succeeds and appends exactly one
    message, which carries the sender, the recipient, the content and
    the time of the call, and keeps the messages stored before. *)
Theorem sendMessage_stores_or_rejects (s r : ObjectId) (text : string)
    (now : Date) (c : TextingConcept.messages) :
  TextingConcept.sendMessage s r "" now c
  = (Throw (BadValuesError "Message content cannot be empty"), c)
  ∧ (text ≠ "" →
     is_Ok (TextingConcept.sendMessage s r text now c).1 = true
     ∧ ∃ new,
         docs (TextingConcept.sendMessage s r text now c).2 = docs c ++ [new]
         ∧ fields new
           = {| TextingConcept.sender := s; TextingConcept.recipient := r;
                TextingConcept.content := text;
                TextingConcept.timestamp := now |}).
Proof.
  split; [done|]. intros Htext.
  rewrite (sendMessage_stored s r text now c Htext). simpl.
  split; [done|]. by eexists.
Qed.

Lemma sendMessage_stores_or_rejects_witness :
  "hi" ≠ ""
  ∧ is_Ok (TextingConcept.sendMessage 1%N 2%N "hi" 5 DocCollection.empty).1
    = true.
Proof.
  assert (Hne : "hi" ≠ "") by done.
  split; [exact Hne|].
  exact (proj1 (proj2 (sendMessage_stores_or_rejects 1%N 2%N "hi" 5
                         DocCollection.empty) Hne)).
Defined.

(** X2: when the identifier the store hands out is not in use, the
    message that [sendMessage] answers with is the one it stored, and
    [getMessageById] on its identifier returns that same message. *)
Theorem sendMessage_then_getMessageById (s r : ObjectId) (text : string)
    (now : Date) (c : TextingConcept.messages) :
  text ≠ "" →
  Forall (λ d, _id d ≠ nextId c) (docs c) →
  ∃ new,
    (TextingConcept.sendMessage s r text now c).1
    = Ok ("Message sent successfully!", Some new)
    ∧ new ∈ docs (TextingConcept.sendMessage s r text now c).2
    ∧ TextingConcept.content (fields new) = text
    ∧ TextingConcept.getMessageById (_id new)
        (TextingConcept.sendMessage s r text now c).2
      = Ok new.
Proof.
  intros Htext Hfresh.
  rewrite (sendMessage_stored s r text now c Htext). simpl.
  assert (Hread : ∀ new : BaseDoc TextingConcept.MessageDoc,
    _id new = nextId c →
    readOne (λ d, _id d = nextId c)
      (mkColl (docs c ++ [new]) (N.succ (nextId c))) = Some new).
  { intros new Hid. unfold readOne. simpl. rewrite first_of_app.
    rewrite (proj2 (first_of_None (λ d, _id d = nextId c) _) Hfresh).
    by rewrite first_of_cons, decide_True. }
  eexists. rewrite Hread by done. split_and!; [done| |done|].
  - apply elem_of_app. right. by left.
  - unfold TextingConcept.getMessageById. simpl. by rewrite Hread.
Qed.

Lemma sendMessage_then_getMessageById_witness :
  "hi" ≠ ""
  ∧ Forall (λ d : BaseDoc TextingConcept.MessageDoc, _id d ≠ 0%N) []
  ∧ ∃ new,
      (TextingConcept.sendMessage 1%N 2%N "hi" 5 DocCollection.empty).1
      = Ok ("Message sent successfully!", Some new)
      ∧ new ∈ docs (TextingConcept.sendMessage 1%N 2%N "hi" 5
                      DocCollection.empty).2
      ∧ TextingConcept.content (fields new) = "hi"
      ∧ TextingConcept.getMessageById (_id new)
          (TextingConcept.sendMessage 1%N 2%N "hi" 5 DocCollection.empty).2
        = Ok new.
Proof.
  assert (Hne : "hi" ≠ "") by done.
  assert (Hfresh : Forall (λ d : BaseDoc TextingConcept.MessageDoc,
                             _id d ≠ 0%N) []) by constructor.
  split_and!; [exact Hne|exact Hfresh|].
  exact (sendMessage_then_getMessageById 1%N 2%N "hi" 5 DocCollection.empty
           Hne Hfresh).
Defined.

(** X3: [getMessageById] throws NotFound exactly when no stored
    message has the identifier; what it returns otherwise is a stored
    message with that identifier. *)
Theorem getMessageById_found_or_NotFound (i : ObjectId)
    (c : TextingConcept.messages) :
  (TextingConcept.getMessageById i c = Throw (NotFoundError "Message not found")
   ↔ Forall (λ d, _id d ≠ i) (docs c))
  ∧ (is_Ok (TextingConcept.getMessageById i c) = true
     ↔ Exists (λ d, _id d = i) (docs c))
  ∧ (∀ m, TextingConcept.getMessageById i c = Ok m → m ∈ docs c ∧ _id m = i).
Proof.
  unfold TextingConcept.getMessageById, readOne.
  pose proof (first_of_None (λ d, _id d = i) (docs c)) as Hnone.
  pose proof (first_of_is_Some (λ d, _id d = i) (docs c)) as Hsome.
  pose proof (first_of_Some (λ d, _id d = i) (docs c)) as Hin.
  destruct (first_of (λ d, _id d = i) (docs c)) as [m|]; split_and!.
  - split; [done|]. intros HF. by apply Hnone in HF.
  - split; [intros _; by apply Hsome|done].
  - intros m' [= <-]. by apply Hin.
  - split; [intros _; by apply Hnone|done].
  - split; [done|]. intros HE. apply Hsome in HE. by destruct HE.
  - done.
Qed.

Lemma getMessageById_found_or_NotFound_witness :
  let c := (TextingConcept.sendMessage 1%N 2%N "hi" 5 DocCollection.empty).2 in
  ∃ m, TextingConcept.getMessageById 0%N c = Ok m ∧ m ∈ docs c ∧ _id m = 0%N.
Proof.
  intros c. eexists. split; [reflexivity|].
  exact (proj2 (proj2 (getMessageById_found_or_NotFound 0%N c)) _ eq_refl).
Defined.

(** X4: the transcript of a pair does not depend on the order in which
    the two users are given. *)
Theorem getMessagesBetweenUsers_symmetric (a b : ObjectId)
    (c : TextingConcept.messages) :
  TextingConcept.getMessagesBetweenUsers a b c
  = TextingConcept.getMessagesBetweenUsers b a c.
Proof.
  unfold TextingConcept.getMessagesBetweenUsers, readMany. f_equal.
  apply list_filter_iff. intros d. unfold TextingConcept.between. tauto.
Qed.

(** X5: a message that was sent shows up, once more than before, in
    the transcript of its sender and recipient and in the inbox of its
    recipient; both hold the messages they held before. *)
Theorem sendMessage_extends_transcript (s r : ObjectId) (text : string)
    (now : Date) (c : TextingConcept.messages) :
  text ≠ "" →
  let c' := (TextingConcept.sendMessage s r text now c).2 in
  ∃ new,
    fields new
    = {| TextingConcept.sender := s; TextingConcept.recipient := r;
         TextingConcept.content := text; TextingConcept.timestamp := now |}
    ∧ TextingConcept.getMessagesBetweenUsers s r c'
      ≡ₚ new :: TextingConcept.getMessagesBetweenUsers s r c
    ∧ TextingConcept.getMessagesForUser r c'
      ≡ₚ new :: TextingConcept.getMessagesForUser r c.
Proof.
  intros Htext. rewrite (sendMessage_stored s r text now c Htext). simpl.
  exists (mkDoc (nextId c) now now
            {| TextingConcept.sender := s; TextingConcept.recipient := r;
               TextingConcept.content := text;
               TextingConcept.timestamp := now |}).
  split; [done|].
  unfold TextingConcept.getMessagesBetweenUsers,
    TextingConcept.getMessagesForUser.
  rewrite !readMany_Permutation. simpl. rewrite !filter_app.
  rewrite !filter_cons_True by (by left || done). simpl.
  split; by rewrite <-Permutation_cons_append.
Qed.

Lemma sendMessage_extends_transcript_witness :
  "hi" ≠ ""
  ∧ length (TextingConcept.getMessagesBetweenUsers 1%N 2%N
              (TextingConcept.sendMessage 1%N 2%N "hi" 5
                 DocCollection.empty).2) = 1%nat.
Proof.
  assert (Hne : "hi" ≠ "") by done.
  split; [exact Hne|].
  destruct (sendMessage_extends_transcript 1%N 2%N "hi" 5 DocCollection.empty
              Hne) as (new & _ & Hperm & _).
  by rewrite Hperm.
Defined.

(** X6: sending a message changes no transcript but that of its sender
    and recipient, and no inbox but that of its recipient. *)
Theorem sendMessage_keeps_other_views (s r : ObjectId) (text : string)
    (now : Date) (c : TextingConcept.messages) (a b u : ObjectId) :
  let c' := (TextingConcept.sendMessage s r text now c).2 in
  (¬ ((s = a ∧ r = b) ∨ (s = b ∧ r = a)) →
   TextingConcept.getMessagesBetweenUsers a b c'
   = TextingConcept.getMessagesBetweenUsers a b c)
  ∧ (r ≠ u →
     TextingConcept.getMessagesForUser u c'
     = TextingConcept.getMessagesForUser u c).
Proof.
  destruct (decide (text = "")) as [->|Htext]; [done|].
  rewrite (sendMessage_stored s r text now c Htext). simpl.
  unfold TextingConcept.getMessagesBetweenUsers,
    TextingConcept.getMessagesForUser, readMany. simpl.
  split; intros Hother; rewrite filter_app, filter_cons_False, filter_nil,
    app_nil_r; done.
Qed.

Lemma sendMessage_keeps_other_views_witness :
  let c := (TextingConcept.sendMessage 1%N 2%N "hi" 5 DocCollection.empty).2 in
  let c' := (TextingConcept.sendMessage 2%N 3%N "x" 6 c).2 in
  TextingConcept.getMessagesBetweenUsers 1%N 2%N c'
  = TextingConcept.getMessagesBetweenUsers 1%N 2%N c
  ∧ TextingConcept.getMessagesForUser 2%N c'
    = TextingConcept.getMessagesForUser 2%N c.
Proof.
  intros c c'.
  assert (H1 : ¬ ((2%N = 1%N ∧ 3%N = 2%N) ∨ (2%N = 2%N ∧ 3%N = 1%N))).
  { by intros [[[=] _]|[_ [=]]]. }
  assert (H2 : 3%N ≠ 2%N) by done.
  split.
  - exact (proj1 (sendMessage_keeps_other_views 2%N 3%N "x" 6 c 1%N 2%N 2%N)
             H1).
  - exact (proj2 (sendMessage_keeps_other_views 2%N 3%N "x" 6 c 1%N 2%N 2%N)
             H2).
Defined.

(** X7: after [deleteMessage] on an identifier, and when identifiers
    are not shared between messages, [getMessageById] does not find
    that identifier any more; looking up any other identifier gives
    what it gave before the deletion. *)
Theorem deleteMessage_then_getMessageById (i : ObjectId)
    (c : TextingConcept.messages) :
  let c' := (TextingConcept.deleteMessage i c).2 in
  (NoDup (_id <$> docs c) →
   TextingConcept.getMessageById i c'
   = Throw (NotFoundError "Message not found"))
  ∧ (∀ j, j ≠ i →
       TextingConcept.getMessageById j c' = TextingConcept.getMessageById j c).
Proof.
  unfold TextingConcept.deleteMessage, TextingConcept.getMessageById, deleteOne,
    readOne. simpl. split.
  - intros Hnodup. rewrite delete_first_by_id by done.
    rewrite (proj2 (first_of_None (λ d, _id d = i) _)); [done|].
    apply Forall_forall. by intros d [? _]%list_elem_of_filter.
  - intros j Hji.
    rewrite (first_of_delete_other (λ d, _id d = i) (λ d, _id d = j));
      [done|]. intros d. congruence.
Qed.

Lemma deleteMessage_then_getMessageById_witness :
  let c :=
    (TextingConcept.sendMessage 2%N 1%N "yo" 6
       (TextingConcept.sendMessage 1%N 2%N "hi" 5 DocCollection.empty).2).2 in
  let c' := (TextingConcept.deleteMessage 0%N c).2 in
  TextingConcept.getMessageById 0%N c' = Throw (NotFoundError "Message not found")
  ∧ TextingConcept.getMessageById 1%N c' = TextingConcept.getMessageById 1%N c.
Proof.
  intros c c'.
  assert (Hnd : NoDup (_id <$> docs c)).
  { apply (NoDup_cons 0%N [1%N]). split; [|apply NoDup_singleton].
    by intros [=]%list_elem_of_singleton. }
  assert (Hne : 1%N ≠ 0%N) by done.
  split.
  - exact (proj1 (deleteMessage_then_getMessageById 0%N c) Hnd).
  - exact (proj2 (deleteMessage_then_getMessageById 0%N c) 1%N Hne).
Defined.

(** X8: when identifiers are not shared between messages, deleting a
    message takes it, and nothing else, out of every transcript and
    every inbox. *)
Theorem deleteMessage_shrinks_views (i a b u : ObjectId)
    (c : TextingConcept.messages) :
  NoDup (_id <$> docs c) →
  let c' := (TextingConcept.deleteMessage i c).2 in
  TextingConcept.getMessagesBetweenUsers a b c'
  ≡ₚ filter (λ m, _id m ≠ i) (TextingConcept.getMessagesBetweenUsers a b c)
  ∧ TextingConcept.getMessagesForUser u c'
    ≡ₚ filter (λ m, _id m ≠ i) (TextingConcept.getMessagesForUser u c).
Proof.
  intros Hnodup.
  unfold TextingConcept.deleteMessage, deleteOne,
    TextingConcept.getMessagesBetweenUsers, TextingConcept.getMessagesForUser,
    readMany.
  simpl. rewrite !merge_sort_Permutation.
  rewrite delete_first_by_id by done.
  rewrite !list_filter_filter.
  split; apply reflexive_eq, list_filter_iff; intros d; tauto.
Qed.

Lemma deleteMessage_shrinks_views_witness :
  let c :=
    (TextingConcept.sendMessage 2%N 1%N "yo" 6
       (TextingConcept.sendMessage 1%N 2%N "hi" 5 DocCollection.empty).2).2 in
  NoDup (_id <$> docs c)
  ∧ length (TextingConcept.getMessagesBetweenUsers 1%N 2%N
              (TextingConcept.deleteMessage 0%N c).2) = 1%nat.
Proof.
  intros c.
  assert (Hnd : NoDup (_id <$> docs c)).
  { apply (NoDup_cons 0%N [1%N]). split; [|apply NoDup_singleton].
    by intros [=]%list_elem_of_singleton. }
  split; [exact Hnd|].
  by rewrite (proj1 (deleteMessage_shrinks_views 0%N 1%N 2%N 1%N c Hnd)).
Defined.

(** ** More on video calling *)

Lemma update_first_keeps_elem {T : Type} (P : BaseDoc T → Prop)
    `{∀ d, Decision (P d)} (g : BaseDoc T → BaseDoc T)
    (l : list (BaseDoc T)) (d : BaseDoc T) :
  d ∈ l → first_of P l ≠ Some d → d ∈ update_first P g l.
Proof.
  induction l as [|x l IH]; [done|]. rewrite first_of_cons. simpl.
  destruct (decide (P x)) as [HP|HP].
  - intros [->|Hin]%elem_of_cons Hne; [done|by right].
  - intros [->|Hin]%elem_of_cons Hne; [by left|right; by apply IH].
Qed.

Lemma update_first_leaves_filter {T : Type} (P Q : BaseDoc T → Prop)
    `{∀ d, Decision (P d)} `{∀ d, Decision (Q d)}
    (g : BaseDoc T → BaseDoc T) (l : list (BaseDoc T)) (d : BaseDoc T) :
  first_of P l = Some d → Q d → ¬ Q (g d) →
  S (length (filter Q (update_first P g l))) = length (filter Q l).
Proof.
  intros Hfirst HQ HQg. induction l as [|x l IH]; [done|].
  rewrite first_of_cons in Hfirst. simpl.
  destruct (decide (P x)) as [HP|HP].
  - injection Hfirst as ->.
    by rewrite filter_cons_False, filter_cons_True.
  - destruct (decide (Q x)).
    + rewrite !filter_cons_True by done. simpl. by rewrite IH.
    + rewrite !filter_cons_False by done. by apply IH.
Qed.

Lemma update_first_fmap {T A : Type} (P : BaseDoc T → Prop)
    `{∀ d, Decision (P d)} (g : BaseDoc T → BaseDoc T) (k : BaseDoc T → A)
    (l : list (BaseDoc T)) :
  (∀ x, k (g x) = k x) → k <$> update_first P g l = k <$> l.
Proof.
  intros Hk. induction l as [|x l IH]; [done|]. simpl.
  destruct (decide (P x)); rewrite !fmap_cons.
  - by rewrite Hk.
  - by rewrite IH.
Qed.

(** X9: when the caller and the recipient differ and the identifier
    the store hands out is not in use, the call that [startCall]
    answers with is the record it stored, from the caller to the
    recipient and without end time, and [getCallStatus] on its
    identifier returns that record. *)
Theorem startCall_then_getCallStatus (c r : ObjectId) (now : Date)
    (calls : VideoCallingConcept.activeCalls) :
  c ≠ r →
  Forall (λ d, _id d ≠ nextId calls) (docs calls) →
  ∃ call,
    (VideoCallingConcept.startCall c r now calls).1
    = Ok ("Call started successfully!", Some call)
    ∧ VideoCallingConcept.getCallStatus (_id call)
        (VideoCallingConcept.startCall c r now calls).2
      = Ok call
    ∧ VideoCallingConcept.caller_of call = c
    ∧ VideoCallingConcept.recipient_of call = r
    ∧ VideoCallingConcept.endTime_of call = None.
Proof.
  intros Hcr Hfresh. unfold VideoCallingConcept.startCall.
  rewrite decide_False by done. simpl.
  assert (Hread : ∀ new : BaseDoc VideoCallingConcept.CallDoc,
    _id new = nextId calls →
    readOne (λ d, _id d = nextId calls)
      (mkColl (docs calls ++ [new]) (N.succ (nextId calls))) = Some new).
  { intros new Hid. unfold readOne. simpl. rewrite first_of_app.
    rewrite (proj2 (first_of_None (λ d, _id d = nextId calls) _) Hfresh).
    by rewrite first_of_cons, decide_True. }
  eexists. rewrite Hread by done. split_and!; try done.
  unfold VideoCallingConcept.getCallStatus. simpl. by rewrite Hread.
Qed.

Lemma startCall_then_getCallStatus_witness :
  1%N ≠ 2%N
  ∧ Forall (λ d : BaseDoc VideoCallingConcept.CallDoc, _id d ≠ 0%N) []
  ∧ ∃ call,
      (VideoCallingConcept.startCall 1%N 2%N 10 DocCollection.empty).1
      = Ok ("Call started successfully!", Some call)
      ∧ VideoCallingConcept.getCallStatus (_id call)
          (VideoCallingConcept.startCall 1%N 2%N 10 DocCollection.empty).2
        = Ok call
      ∧ VideoCallingConcept.caller_of call = 1%N
      ∧ VideoCallingConcept.recipient_of call = 2%N
      ∧ VideoCallingConcept.endTime_of call = None.
Proof.
  assert (Hne : 1%N ≠ 2%N) by done.
  assert (Hfresh : Forall (λ d : BaseDoc VideoCallingConcept.CallDoc,
                             _id d ≠ 0%N) []) by constructor.
  split_and!; [exact Hne|exact Hfresh|].
  exact (startCall_then_getCallStatus 1%N 2%N 10 DocCollection.empty
           Hne Hfresh).
Defined.

(** X10: [endCall], whatever it answers, keeps the history: the
    records keep their order, identifiers, callers, recipients and
    start times, and a record that already had an end time stays in the
    collection as it is. *)
Theorem endCall_keeps_history (callId : ObjectId) (now : Date)
    (calls : VideoCallingConcept.activeCalls) :
  let calls' := (VideoCallingConcept.endCall callId now calls).2 in
  (λ d, (_id d, VideoCallingConcept.caller_of d,
         VideoCallingConcept.recipient_of d,
         VideoCallingConcept.startTime (fields d))) <$> docs calls'
  = (λ d, (_id d, VideoCallingConcept.caller_of d,
           VideoCallingConcept.recipient_of d,
           VideoCallingConcept.startTime (fields d))) <$> docs calls
  ∧ ∀ d, d ∈ docs calls → VideoCallingConcept.endTime_of d ≠ None →
         d ∈ docs calls'.
Proof.
  unfold VideoCallingConcept.endCall, readOne.
  destruct (first_of (λ d, _id d = callId) (docs calls)) as [call|] eqn:Hfirst;
    [|done].
  destruct (VideoCallingConcept.endTime_of call) eqn:Hend; [done|].
  unfold partialUpdateOne. simpl. split.
  - by apply update_first_fmap.
  - intros d Hin Hended. apply update_first_keeps_elem; [done|].
    rewrite Hfirst. intros [= ->]. congruence.
Qed.

Lemma endCall_keeps_history_witness :
  let calls :=
    (VideoCallingConcept.endCall 0%N 20
       (VideoCallingConcept.startCall 1%N 2%N 10 DocCollection.empty).2).2 in
  let ended :=
    mkDoc 0%N 10 20
      {| VideoCallingConcept.caller := 1%N; VideoCallingConcept.recipient := 2%N;
         VideoCallingConcept.startTime := 10;
         VideoCallingConcept.endTime := Some 20;
         VideoCallingConcept.status := None |} in
  ended ∈ docs calls
  ∧ VideoCallingConcept.endTime_of ended ≠ None
  ∧ ended ∈ docs (VideoCallingConcept.endCall 0%N 30 calls).2.
Proof.
  intros calls ended.
  assert (Hin : ended ∈ docs calls) by (change (ended ∈ [ended]); left).
  assert (Hended : VideoCallingConcept.endTime_of ended ≠ None) by done.
  split_and!; [exact Hin|exact Hended|].
  exact (proj2 (endCall_keeps_history 0%N 30 calls) ended Hin Hended).
Defined.

(** X11: an [endCall] that succeeds takes exactly one record out of
    the records without end time; an [endCall] that throws leaves the
    collection as it is. *)
Theorem endCall_closes_one (callId : ObjectId) (now : Date)
    (calls : VideoCallingConcept.activeCalls) :
  let calls' := (VideoCallingConcept.endCall callId now calls).2 in
  (is_Ok (VideoCallingConcept.endCall callId now calls).1 = true →
   S (length (filter (λ d, VideoCallingConcept.endTime_of d = None)
                (docs calls')))
   = length (filter (λ d, VideoCallingConcept.endTime_of d = None)
               (docs calls)))
  ∧ (is_Ok (VideoCallingConcept.endCall callId now calls).1 = false →
     calls' = calls).
Proof.
  unfold VideoCallingConcept.endCall, readOne.
  destruct (first_of (λ d, _id d = callId) (docs calls)) as [call|] eqn:Hfirst;
    [|done].
  destruct (VideoCallingConcept.endTime_of call) eqn:Hend; [done|].
  simpl. split; [|done]. intros _.
  by apply (update_first_leaves_filter (λ d, _id d = callId)
              (λ d, VideoCallingConcept.endTime_of d = None) _ _ call).
Qed.

Lemma endCall_closes_one_witness :
  let calls := (VideoCallingConcept.startCall 1%N 2%N 10 DocCollection.empty).2 in
  is_Ok (VideoCallingConcept.endCall 0%N 20 calls).1 = true
  ∧ is_Ok (VideoCallingConcept.endCall 7%N 20 calls).1 = false
  ∧ S (length (filter (λ d, VideoCallingConcept.endTime_of d = None)
                 (docs (VideoCallingConcept.endCall 0%N 20 calls).2)))
    = length (filter (λ d, VideoCallingConcept.endTime_of d = None)
                (docs calls))
  ∧ (VideoCallingConcept.endCall 7%N 20 calls).2 = calls.
Proof.
  intros calls.
  assert (Hok : is_Ok (VideoCallingConcept.endCall 0%N 20 calls).1 = true)
    by reflexivity.
  assert (Hno : is_Ok (VideoCallingConcept.endCall 7%N 20 calls).1 = false)
    by reflexivity.
  split_and!; [exact Hok|exact Hno| |].
  - exact (proj1 (endCall_closes_one 0%N 20 calls) Hok).
  - exact (proj2 (endCall_closes_one 7%N 20 calls) Hno).
Defined.

(** ** More on mood mapping *)

Lemma pair_user (u f : ObjectId) (l : list (BaseDoc MoodMappingConcept.MoodDoc)) :
  Forall (λ d, MoodMappingConcept.user_of d ≠ u) l →
  Forall (λ d, ¬ MoodMappingConcept.pair u f d) l.
Proof. intros Hl. eapply Forall_impl; [done|]. by intros d Hd [? _]. Qed.

(** X12: [setMood] succeeds exactly when the mood is not empty and
    passes the emoji test; otherwise it throws BadValues and leaves the
    collection as it is. *)
Theorem setMood_valid_or_BadValues (single_emoji : string → bool)
    (u f : ObjectId) (m : string) (now : Date) (c : MoodMappingConcept.moods) :
  (is_Ok (MoodMappingConcept.setMood single_emoji u f m now c).1 = true
   ↔ m ≠ "" ∧ single_emoji m = true)
  ∧ (is_Ok (MoodMappingConcept.setMood single_emoji u f m now c).1 = false →
     MoodMappingConcept.setMood single_emoji u f m now c
     = (Throw (BadValuesError "Mood must be a valid emoji!"), c)).
Proof.
  unfold MoodMappingConcept.setMood.
  destruct (decide (m = "")) as [->|Hm].
  - simpl. split; [|done]. split; [done|]. by intros [? _].
  - rewrite bool_decide_eq_false_2 by done. simpl.
    destruct (single_emoji m); simpl.
    + destruct (readOne _ c); simpl; (split; [by split|done]).
    + split; [|done]. split; [done|]. by intros [_ ?].
Qed.

Lemma setMood_valid_or_BadValues_witness :
  MoodMappingConcept.setMood MoodMappingConcept.emoticon 1%N 2%N "sad" 10
    DocCollection.empty
  = (Throw (BadValuesError "Mood must be a valid emoji!"), DocCollection.empty).
Proof.
  assert (Hbad : is_Ok (MoodMappingConcept.setMood MoodMappingConcept.emoticon
                          1%N 2%N "sad" 10 DocCollection.empty).1 = false)
    by reflexivity.
  exact (proj2 (setMood_valid_or_BadValues MoodMappingConcept.emoticon
                  1%N 2%N "sad" 10 DocCollection.empty) Hbad).
Defined.

(** X13: a valid mood that is set can be read back: when the user has
    no mood document at all, or has one for this friend, [getBothMoods]
    afterwards gives the new mood as the user's mood for the friend. *)
Theorem setMood_then_getBothMoods (single_emoji : string → bool)
    (u f : ObjectId) (m : string) (now : Date) (c : MoodMappingConcept.moods) :
  m ≠ "" → single_emoji m = true →
  Forall (λ d, MoodMappingConcept.user_of d ≠ u) (docs c)
  ∨ Exists (MoodMappingConcept.pair u f) (docs c) →
  (MoodMappingConcept.getBothMoods u f
     (MoodMappingConcept.setMood single_emoji u f m now c).2).1 = Some m
  ∧ (MoodMappingConcept.getBothMoods f u
       (MoodMappingConcept.setMood single_emoji u f m now c).2).2 = Some m.
Proof.
  intros Hm Hse Hcase.
  assert (Hvalid : bool_decide (m = "") || negb (single_emoji m) = false).
  { by rewrite bool_decide_eq_false_2, Hse. }
  assert (Hgoal :
    MoodMappingConcept.mood_of
      <$> first_of (MoodMappingConcept.pair u f)
            (docs (MoodMappingConcept.setMood single_emoji u f m now c).2)
    = Some m).
  2: { unfold MoodMappingConcept.getBothMoods, readOne. simpl.
       by rewrite Hgoal. }
  destruct (setMood_collection single_emoji u f m now c)
    as [[Hbad _]|[(_ & Hex & ->)|(_ & Hnone & ->)]]; [congruence| |].
  - destruct Hcase as [Hnone|Hpair];
      [by apply Forall_Exists_neg in Hnone|].
    unfold partialUpdateOne. simpl.
    rewrite first_of_update_same by done.
    apply (first_of_is_Some (MoodMappingConcept.pair u f)) in Hpair
      as [d ->]. done.
  - rewrite first_of_app.
    rewrite (proj2 (first_of_None (MoodMappingConcept.pair u f) _)
               (pair_user u f _ Hnone)).
    by rewrite first_of_cons, decide_True.
Qed.

Lemma setMood_then_getBothMoods_witness :
  let c := (MoodMappingConcept.setMood MoodMappingConcept.emoticon
              1%N 2%N "😀" 10 DocCollection.empty).2 in
  (MoodMappingConcept.getBothMoods 1%N 2%N
     (MoodMappingConcept.setMood MoodMappingConcept.emoticon
        1%N 2%N "😎" 20 c).2).1 = Some "😎"
  ∧ (MoodMappingConcept.getBothMoods 2%N 1%N
       (MoodMappingConcept.setMood MoodMappingConcept.emoticon
          2%N 1%N "😂" 30 c).2).1 = Some "😂".
Proof.
  intros c.
  assert (H1 : "😎" ≠ "") by done.
  assert (H2 : "😂" ≠ "") by done.
  assert (Hpair : Exists (MoodMappingConcept.pair 1%N 2%N) (docs c)).
  { by apply Exists_cons_hd. }
  assert (Hnone : Forall (λ d, MoodMappingConcept.user_of d ≠ 2%N) (docs c)).
  { by repeat constructor. }
  split.
  - exact (proj1 (setMood_then_getBothMoods MoodMappingConcept.emoticon
                    1%N 2%N "😎" 20 c H1 eq_refl (or_intror Hpair))).
  - exact (proj1 (setMood_then_getBothMoods MoodMappingConcept.emoticon
                    2%N 1%N "😂" 30 c H2 eq_refl (or_introl Hnone))).
Defined.

(** X14: a user who has a mood document, but none for this friend,
    cannot set a mood for this friend: a valid [setMood] answers
    "updated" with no document, the collection stays as it is, and
    [getBothMoods] keeps reading no mood for the pair. *)
Theorem setMood_for_another_friend (single_emoji : string → bool)
    (u f : ObjectId) (m : string) (now : Date) (c : MoodMappingConcept.moods) :
  m ≠ "" → single_emoji m = true →
  Exists (λ d, MoodMappingConcept.user_of d = u) (docs c) →
  Forall (λ d, ¬ MoodMappingConcept.pair u f d) (docs c) →
  MoodMappingConcept.setMood single_emoji u f m now c
  = (Ok ("Mood updated successfully!", None), c)
  ∧ (MoodMappingConcept.getBothMoods u f
       (MoodMappingConcept.setMood single_emoji u f m now c).2).1 = None.
Proof.
  intros Hm Hse Hex Hnone.
  assert (Hset : MoodMappingConcept.setMood single_emoji u f m now c
                 = (Ok ("Mood updated successfully!", None), c)).
  { unfold MoodMappingConcept.setMood.
    rewrite bool_decide_eq_false_2, Hse by done. simpl.
    apply (first_of_is_Some (λ d, MoodMappingConcept.user_of d = u)) in Hex
      as [d Hd].
    unfold readOne at 1. rewrite Hd.
    unfold partialUpdateOne, readOne. simpl.
    rewrite update_first_none by done.
    rewrite (proj2 (first_of_None (MoodMappingConcept.pair u f) _) Hnone).
    by destruct c. }
  rewrite Hset. split; [done|].
  unfold MoodMappingConcept.getBothMoods, readOne. simpl.
  by rewrite (proj2 (first_of_None (MoodMappingConcept.pair u f) _) Hnone).
Qed.

Lemma setMood_for_another_friend_witness :
  let c := (MoodMappingConcept.setMood MoodMappingConcept.emoticon
              1%N 2%N "😀" 10 DocCollection.empty).2 in
  MoodMappingConcept.setMood MoodMappingConcept.emoticon 1%N 3%N "😎" 20 c
  = (Ok ("Mood updated successfully!", None), c).
Proof.
  intros c.
  assert (Hm : "😎" ≠ "") by done.
  assert (Hex : Exists (λ d, MoodMappingConcept.user_of d = 1%N) (docs c)).
  { by apply Exists_cons_hd. }
  assert (Hnone : Forall (λ d, ¬ MoodMappingConcept.pair 1%N 3%N d) (docs c)).
  { repeat constructor. by intros [_ [=]]. }
  exact (proj1 (setMood_for_another_friend MoodMappingConcept.emoticon
                  1%N 3%N "😎" 20 c Hm eq_refl Hex Hnone)).
Defined.

(** X15: [setMood] for one pair does not change what [getBothMoods]
    reads for any other directed pair. *)
Theorem setMood_keeps_other_pairs (single_emoji : string → bool)
    (u f : ObjectId) (m : string) (now : Date) (c : MoodMappingConcept.moods)
    (u' f' : ObjectId) :
  u' ≠ u ∨ f' ≠ f →
  (MoodMappingConcept.getBothMoods u' f'
     (MoodMappingConcept.setMood single_emoji u f m now c).2).1
  = (MoodMappingConcept.getBothMoods u' f' c).1.
Proof.
  intros Hother.
  assert (Hne : ∀ d, MoodMappingConcept.pair u f d →
                     ¬ MoodMappingConcept.pair u' f' d).
  { intros d [??] [??]. destruct Hother; congruence. }
  unfold MoodMappingConcept.getBothMoods, readOne. simpl. f_equal.
  destruct (setMood_collection single_emoji u f m now c)
    as [[_ ->]|[(_ & _ & ->)|(_ & _ & ->)]]; [done| |].
  - unfold partialUpdateOne. simpl.
    apply (first_of_update_other (MoodMappingConcept.pair u f)
             (MoodMappingConcept.pair u' f')).
    intros d Hd. split; [by apply Hne|]. by apply Hne.
  - rewrite first_of_app, first_of_cons, decide_False.
    + by destruct (first_of _ (docs c)).
    + by apply Hne.
Qed.

Lemma setMood_keeps_other_pairs_witness :
  let c := (MoodMappingConcept.setMood MoodMappingConcept.emoticon
              1%N 2%N "😀" 10 DocCollection.empty).2 in
  (MoodMappingConcept.getBothMoods 1%N 2%N
     (MoodMappingConcept.setMood MoodMappingConcept.emoticon
        2%N 1%N "😎" 20 c).2).1 = Some "😀".
Proof.
  intros c.
  assert (Hother : 1%N ≠ 2%N ∨ 2%N ≠ 1%N) by by left.
  exact (setMood_keeps_other_pairs MoodMappingConcept.emoticon
           2%N 1%N "😎" 20 c 1%N 2%N Hother).
Defined.

(** X16: when the collection holds at most one record for a pair,
    [getBothMoods] reads no mood for the pair after [removeMood]; and
    [removeMood] never changes what is read for another pair. *)
Theorem removeMood_then_getBothMoods (u f : ObjectId)
    (c : MoodMappingConcept.moods) (u' f' : ObjectId) :
  ((length (filter (MoodMappingConcept.pair u f) (docs c)) ≤ 1)%nat →
   (MoodMappingConcept.getBothMoods u f
      (MoodMappingConcept.removeMood u f c).2).1 = None)
  ∧ (u' ≠ u ∨ f' ≠ f →
     (MoodMappingConcept.getBothMoods u' f'
        (MoodMappingConcept.removeMood u f c).2).1
     = (MoodMappingConcept.getBothMoods u' f' c).1).
Proof.
  assert (Hdocs : docs (MoodMappingConcept.removeMood u f c).2
                  = delete_first (MoodMappingConcept.pair u f) (docs c)).
  { unfold MoodMappingConcept.removeMood, deleteOne. simpl.
    by destruct (decide _). }
  unfold MoodMappingConcept.getBothMoods, readOne. simpl. rewrite Hdocs.
  split.
  - intros Hone. by rewrite first_of_delete_same.
  - intros Hother. f_equal.
    apply (first_of_delete_other (MoodMappingConcept.pair u f)
             (MoodMappingConcept.pair u' f')).
    intros d [??] [??]. destruct Hother; congruence.
Qed.

Lemma removeMood_then_getBothMoods_witness :
  let c := (MoodMappingConcept.setMood MoodMappingConcept.emoticon
              2%N 1%N "😎" 20
              (MoodMappingConcept.setMood MoodMappingConcept.emoticon
                 1%N 2%N "😀" 10 DocCollection.empty).2).2 in
  (MoodMappingConcept.getBothMoods 1%N 2%N
     (MoodMappingConcept.removeMood 1%N 2%N c).2).1 = None
  ∧ (MoodMappingConcept.getBothMoods 2%N 1%N
       (MoodMappingConcept.removeMood 1%N 2%N c).2).1 = Some "😎".
Proof.
  intros c.
  assert (Hone : (length (filter (MoodMappingConcept.pair 1%N 2%N) (docs c))
                  ≤ 1)%nat).
  { vm_compute. lia. }
  assert (Hother : 2%N ≠ 1%N ∨ 1%N ≠ 2%N) by by left.
  split.
  - exact (proj1 (removeMood_then_getBothMoods 1%N 2%N c 2%N 1%N) Hone).
  - exact (proj2 (removeMood_then_getBothMoods 1%N 2%N c 2%N 1%N) Hother).
Defined.

(** ** Mood mapping with one mood per user *)

(** What [setMood] of this revision does to the collection. *)
Lemma setMood1_collection (u : ObjectId) (m : string) (now : Date)
    (c : MoodMappingConcept1.moods) :
  m ≠ "" →
  (Exists (λ d, MoodMappingConcept1.user_of d = u) (docs c)
   ∧ (MoodMappingConcept1.setMood u m now c).2
     = partialUpdateOne (λ d, MoodMappingConcept1.user_of d = u)
         (MoodMappingConcept1.set_mood m) now c)
  ∨ (Forall (λ d, MoodMappingConcept1.user_of d ≠ u) (docs c)
     ∧ docs (MoodMappingConcept1.setMood u m now c).2
       = docs c ++ [mkDoc (nextId c) now now
                      {| MoodMappingConcept1.user := u;
                         MoodMappingConcept1.mood := m |}]).
Proof.
  intros Hm. unfold MoodMappingConcept1.setMood.
  rewrite decide_False by done. unfold readOne.
  destruct (first_of (λ d, MoodMappingConcept1.user_of d = u) (docs c))
    as [d|] eqn:Hfirst.
  - left. split; [|done].
    apply (first_of_is_Some (λ d, MoodMappingConcept1.user_of d = u)).
    by rewrite Hfirst.
  - right. split; [|done].
    by apply (first_of_None (λ d, MoodMappingConcept1.user_of d = u)).
Qed.

(** X17: in the revision with one mood per user, [setMood] with an
    empty mood throws BadValues and changes nothing, and a mood that
    is not empty can always be read back: [getMood] for the user
    afterwards returns a document of that user with the new mood. *)
Theorem setMood1_then_getMood (u : ObjectId) (m : string) (now : Date)
    (c : MoodMappingConcept1.moods) :
  MoodMappingConcept1.setMood u "" now c
  = (Throw (BadValuesError "Mood cannot be empty!"), c)
  ∧ (m ≠ "" →
     is_Ok (MoodMappingConcept1.setMood u m now c).1 = true
     ∧ ∃ d,
         MoodMappingConcept1.getMood u (MoodMappingConcept1.setMood u m now c).2
         = Ok d
         ∧ MoodMappingConcept1.user_of d = u
         ∧ MoodMappingConcept1.mood_of d = m).
Proof.
  split; [done|]. intros Hm. split.
  - unfold MoodMappingConcept1.setMood. rewrite decide_False by done.
    by destruct (readOne _ c).
  - unfold MoodMappingConcept1.getMood, readOne.
    destruct (setMood1_collection u m now c Hm) as [[Hex ->]|[Hnone ->]].
    + unfold partialUpdateOne. simpl.
      rewrite first_of_update_same by done.
      pose proof Hex as Hu.
      apply (first_of_is_Some (λ d, MoodMappingConcept1.user_of d = u)) in Hex
        as [d Hd].
      rewrite Hd. simpl. eexists. split; [done|]. split; [|done].
      by apply (first_of_Some (λ d, MoodMappingConcept1.user_of d = u)) in Hd
        as [_ ?].
    + rewrite first_of_app.
      rewrite (proj2 (first_of_None
                        (λ d, MoodMappingConcept1.user_of d = u) _) Hnone).
      rewrite first_of_cons, decide_True by done. by eexists.
Qed.

Lemma setMood1_then_getMood_witness :
  "fine" ≠ ""
  ∧ ∃ d,
      MoodMappingConcept1.getMood 1%N
        (MoodMappingConcept1.setMood 1%N "fine" 10 DocCollection.empty).2
      = Ok d
      ∧ MoodMappingConcept1.user_of d = 1%N
      ∧ MoodMappingConcept1.mood_of d = "fine".
Proof.
  assert (Hm : "fine" ≠ "") by done.
  split; [exact Hm|].
  exact (proj2 (proj2 (setMood1_then_getMood 1%N "fine" 10 DocCollection.empty)
                  Hm)).
Defined.

Lemma setMood1_keeps_count (u : ObjectId) (m : string) (now : Date)
    (c : MoodMappingConcept1.moods) (v : ObjectId) :
  (length (filter (λ d, MoodMappingConcept1.user_of d = v) (docs c)) ≤ 1)%nat →
  (length (filter (λ d, MoodMappingConcept1.user_of d = v)
             (docs (MoodMappingConcept1.setMood u m now c).2)) ≤ 1)%nat.
Proof.
  intros Hone. destruct (decide (m = "")) as [->|Hm]; [done|].
  destruct (setMood1_collection u m now c Hm) as [[_ ->]|[Hnone ->]].
  - unfold partialUpdateOne. simpl. by rewrite update_first_filter_length.
  - rewrite filter_app, length_app.
    destruct (decide (v = u)) as [->|Hvu].
    + rewrite (filter_none (λ d, MoodMappingConcept1.user_of d = u)) by done.
      rewrite filter_cons_True by done. simpl. lia.
    + rewrite (filter_cons_False _ _ [])
        by (unfold MoodMappingConcept1.user_of; simpl; congruence).
      simpl. lia.
Qed.

(** X18: in the revision with one mood per user, every collection
    that the methods can produce from the empty one holds at most one
    mood document per user, and there [getMood] throws NotFound for a
    user right after [removeMood] for that user. *)
Theorem reachable1_one_mood_per_user (c : MoodMappingConcept1.moods) :
  MoodMappingConcept1.reachable c →
  (∀ u, (length (filter (λ d, MoodMappingConcept1.user_of d = u) (docs c))
         ≤ 1)%nat)
  ∧ (∀ u, MoodMappingConcept1.getMood u (MoodMappingConcept1.removeMood u c).2
          = Throw (NotFoundError "Mood not found for this user.")).
Proof.
  intros Hreach.
  assert (Hone : ∀ u,
    (length (filter (λ d, MoodMappingConcept1.user_of d = u) (docs c))
     ≤ 1)%nat).
  { induction Hreach as [|u m now c _ IH|u c _ IH]; intros v.
    - simpl. lia.
    - by apply setMood1_keeps_count.
    - unfold MoodMappingConcept1.removeMood, deleteOne. simpl.
      etrans; [|apply (IH v)]. apply delete_first_filter_le; apply _. }
  split; [done|]. intros u.
  unfold MoodMappingConcept1.getMood, MoodMappingConcept1.removeMood, deleteOne,
    readOne. simpl.
  by rewrite first_of_delete_same.
Qed.

Lemma reachable1_one_mood_per_user_witness :
  let c := (MoodMappingConcept1.setMood 1%N "glad" 20
              (MoodMappingConcept1.setMood 1%N "fine" 10
                 DocCollection.empty).2).2 in
  MoodMappingConcept1.reachable c
  ∧ (length (filter (λ d, MoodMappingConcept1.user_of d = 1%N) (docs c))
     ≤ 1)%nat.
Proof.
  intros c.
  assert (Hreach : MoodMappingConcept1.reachable c).
  { do 2 apply MoodMappingConcept1.reach_setMood.
    apply MoodMappingConcept1.reach_empty. }
  split; [exact Hreach|].
  exact (proj1 (reachable1_one_mood_per_user c Hreach) 1%N).
Defined.

(** X19: in the revision with one mood per user, [removeMood] never
    throws: it answers with the success message also when the user has
    no mood document, in which case the collection stays as it is;
    otherwise it deletes one document of the user and no other. *)
Theorem removeMood1_never_NotFound (u : ObjectId)
    (c : MoodMappingConcept1.moods) :
  (MoodMappingConcept1.removeMood u c).1 = Ok "Mood removed successfully!"
  ∧ (Forall (λ d, MoodMappingConcept1.user_of d ≠ u) (docs c) →
     (MoodMappingConcept1.removeMood u c).2 = c)
  ∧ (Exists (λ d, MoodMappingConcept1.user_of d = u) (docs c) →
     S (length (filter (λ d, MoodMappingConcept1.user_of d = u)
                  (docs (MoodMappingConcept1.removeMood u c).2)))
     = length (filter (λ d, MoodMappingConcept1.user_of d = u) (docs c)))
  ∧ filter (λ d, MoodMappingConcept1.user_of d ≠ u)
      (docs (MoodMappingConcept1.removeMood u c).2)
    = filter (λ d, MoodMappingConcept1.user_of d ≠ u) (docs c).
Proof.
  unfold MoodMappingConcept1.removeMood, deleteOne. simpl. split_and!.
  - done.
  - intros Hnone. rewrite delete_first_none by done. by destruct c.
  - intros Hex. by apply delete_first_filter_same.
  - apply (delete_first_filter_other (λ d, MoodMappingConcept1.user_of d = u)
             (λ d, MoodMappingConcept1.user_of d ≠ u)). auto.
Qed.

Lemma removeMood1_never_NotFound_witness :
  (MoodMappingConcept1.removeMood 1%N DocCollection.empty).2
  = DocCollection.empty.
Proof.
  assert (Hnone : Forall (λ d, MoodMappingConcept1.user_of d ≠ 1%N)
                    (docs (@DocCollection.empty MoodMappingConcept1.MoodDoc)))
    by constructor.
  exact (proj1 (proj2 (removeMood1_never_NotFound 1%N DocCollection.empty))
           Hnone).
Defined.

(** X20: in the revision with one mood per user, setting the mood of
    one user does not change what [getMood] returns for another. *)
Theorem setMood1_keeps_other_users (u : ObjectId) (m : string) (now : Date)
    (c : MoodMappingConcept1.moods) (v : ObjectId) :
  v ≠ u →
  MoodMappingConcept1.getMood v (MoodMappingConcept1.setMood u m now c).2
  = MoodMappingConcept1.getMood v c.
Proof.
  intros Hvu. destruct (decide (m = "")) as [->|Hm]; [done|].
  unfold MoodMappingConcept1.getMood, readOne.
  destruct (setMood1_collection u m now c Hm) as [[_ ->]|[_ ->]].
  - unfold partialUpdateOne. simpl.
    rewrite (first_of_update_other (λ d, MoodMappingConcept1.user_of d = u)
               (λ d, MoodMappingConcept1.user_of d = v)); [done|].
    intros d Hd. unfold MoodMappingConcept1.user_of in *. simpl.
    split; congruence.
  - rewrite first_of_app, first_of_cons, decide_False
      by (unfold MoodMappingConcept1.user_of; simpl; congruence).
    by destruct (first_of _ (docs c)).
Qed.

Lemma setMood1_keeps_other_users_witness :
  let c := (MoodMappingConcept1.setMood 1%N "fine" 10 DocCollection.empty).2 in
  MoodMappingConcept1.getMood 1%N (MoodMappingConcept1.setMood 2%N "glad" 20 c).2
  = MoodMappingConcept1.getMood 1%N c.
Proof.
  intros c.
  assert (Hne : 1%N ≠ 2%N) by done.
  exact (setMood1_keeps_other_users 2%N "glad" 20 c 1%N Hne).
Defined.

(** ** More on the routes *)

(** X21: [GET /moods/:recipient] changes no collection, and an answer
    it gives shows the mood the caller has set for the recipient (or
    nothing) and then the recipient's name followed by nothing: the
    mood that the recipient has set for the caller never appears in
    it. *)
Theorem getMood_route_shows_own_mood_only
    (session : SessioningConcept.SessionDoc) (recipient : string)
    (app : MoodRoutes.App) :
  (MoodRoutes.getMood session recipient app).2 = app
  ∧ ∀ answer,
      (MoodRoutes.getMood session recipient app).1 = Ok answer →
      ∃ user recipientUser,
        session = Some user
        ∧ readOne (λ d, AuthenticatingConcept.username_of d = recipient)
            (MoodRoutes.Authing app) = Some recipientUser
        ∧ answer
          = "You: "
            +:+ MoodRoutes.or_empty
                  (MoodMappingConcept.getBothMoods user (_id recipientUser)
                     (MoodRoutes.MoodMapping app)).1
            +:+ "    " +:+ recipient +:+ ": ".
Proof.
  unfold MoodRoutes.getMood, mbind, MoodRoutes.M_bind, MoodRoutes.pure,
    MoodRoutes.reading, MoodRoutes.throw, mret, MoodRoutes.M_ret.
  destruct session as [user|]; simpl; [|done].
  unfold AuthenticatingConcept.getUserByUsername.
  destruct (readOne (λ d, AuthenticatingConcept.username_of d = recipient)
              (MoodRoutes.Authing app)) as [recipientUser|] eqn:Hrec;
    simpl; [|done].
  destruct (AuthenticatingConcept.getUserById user (MoodRoutes.Authing app))
    as [userDoc|]; simpl; [|done].
  destruct (FriendingConcept.assertAreFriends _ _ _ _ _); simpl; [|done].
  split; [done|]. intros answer [= <-]. exists user, recipientUser.
  split_and!; [done..|].
  apply (first_of_Some (λ d, AuthenticatingConcept.username_of d = recipient))
    in Hrec as [_ ->].
  unfold MoodRoutes.recipientMood, MoodRoutes.yourMood. by simpl.
Qed.

(** alice (1) and bob (2) are friends and bob has set a mood for
    alice; alice asks for the moods. *)
Lemma getMood_route_shows_own_mood_only_witness :
  let app :=
    {| MoodRoutes.Authing :=
         mkColl [mkDoc 1%N 0 0 {| AuthenticatingConcept.username := "alice" |};
                 mkDoc 2%N 0 0 {| AuthenticatingConcept.username := "bob" |}]
           3%N;
       MoodRoutes.Friending :=
         mkColl [mkDoc 0%N 0 0 {| FriendingConcept.user1 := 1%N;
                                  FriendingConcept.user2 := 2%N |}] 1%N;
       MoodRoutes.MoodMapping :=
         (MoodMappingConcept.setMood MoodMappingConcept.emoticon
            2%N 1%N "😎" 10 DocCollection.empty).2 |} in
  (MoodRoutes.getMood (Some 1%N) "bob" app).1 = Ok "You:     bob: "
  ∧ (MoodMappingConcept.getBothMoods 1%N 2%N (MoodRoutes.MoodMapping app)).2
    = Some "😎".
Proof.
  intros app.
  assert (Hrun : (MoodRoutes.getMood (Some 1%N) "bob" app).1
                 = Ok "You:     bob: ") by reflexivity.
  destruct (proj2 (getMood_route_shows_own_mood_only (Some 1%N) "bob" app)
              _ Hrun) as (user & recipientUser & _ & _ & _).
  split; [exact Hrun|reflexivity].
Defined.

(** X22: [POST /calls] writes nothing when it throws.  When it
    succeeds, the session names a user, the recipient is registered
    under the given name, the two differ and are joined by a friend
    edge, and the one thing written is one more call record, from the
    session's user to the recipient and without end time. *)
Theorem startCall_route_outcome (session : SessioningConcept.SessionDoc)
    (recipient : string) (now : Date) (app : Routes.App) :
  (is_Ok (Routes.startCall session recipient now app).1 = false →
   (Routes.startCall session recipient now app).2 = app)
  ∧ (is_Ok (Routes.startCall session recipient now app).1 = true →
     ∃ callerId recipientUser call,
       session = Some callerId
       ∧ readOne (λ d, AuthenticatingConcept.username_of d = recipient)
           (Routes.Authing app) = Some recipientUser
       ∧ callerId ≠ _id recipientUser
       ∧ Exists (FriendingConcept.edge callerId (_id recipientUser))
           (docs (Routes.Friending app))
       ∧ Routes.Authing (Routes.startCall session recipient now app).2
         = Routes.Authing app
       ∧ Routes.Friending (Routes.startCall session recipient now app).2
         = Routes.Friending app
       ∧ docs (Routes.VideoCalling
                 (Routes.startCall session recipient now app).2)
         = docs (Routes.VideoCalling app) ++ [call]
       ∧ VideoCallingConcept.caller_of call = callerId
       ∧ VideoCallingConcept.recipient_of call = _id recipientUser
       ∧ VideoCallingConcept.endTime_of call = None).
Proof.
  unfold Routes.startCall, mbind, Routes.M_bind, Routes.pure, Routes.reading,
    Routes.throw, Routes.calling.
  destruct session as [callerId|]; simpl; [|done].
  destruct (AuthenticatingConcept.getUserById callerId (Routes.Authing app))
    as [callerUser|]; simpl; [|done].
  unfold AuthenticatingConcept.getUserByUsername.
  destruct (readOne (λ d, AuthenticatingConcept.username_of d = recipient)
              (Routes.Authing app)) as [recipientUser|] eqn:Hrec;
    simpl; [|done].
  unfold FriendingConcept.assertAreFriends, readOne.
  destruct (first_of (FriendingConcept.edge callerId (_id recipientUser))
              (docs (Routes.Friending app))) as [e|] eqn:Hedge;
    simpl; [|done].
  destruct (decide (callerId = _id recipientUser)) as [Heq|Hne].
  - unfold VideoCallingConcept.startCall. rewrite decide_True by done.
    simpl. split; [|done]. intros _. by destruct app.
  - destruct (startCall_other callerId (_id recipientUser) now
                (Routes.VideoCalling app) Hne) as [answer ->].
    simpl. split; [done|]. intros _.
    eexists callerId, recipientUser, _. split_and!; try done.
    apply (first_of_is_Some (FriendingConcept.edge callerId (_id recipientUser))).
    by rewrite Hedge.
Qed.

Lemma startCall_route_outcome_witness :
  is_Ok (Routes.startCall (Some Routes.alice) "bob" 10
           Routes.friends_alice_bob).1 = true
  ∧ is_Ok (Routes.startCall (Some Routes.alice) "carol" 10
             Routes.friends_alice_bob).1 = false
  ∧ (Routes.startCall (Some Routes.alice) "carol" 10
       Routes.friends_alice_bob).2 = Routes.friends_alice_bob.
Proof.
  assert (Hok : is_Ok (Routes.startCall (Some Routes.alice) "bob" 10
                         Routes.friends_alice_bob).1 = true) by reflexivity.
  assert (Hno : is_Ok (Routes.startCall (Some Routes.alice) "carol" 10
                         Routes.friends_alice_bob).1 = false) by reflexivity.
  destruct (proj2 (startCall_route_outcome (Some Routes.alice) "bob" 10
                     Routes.friends_alice_bob) Hok) as (? & ? & ? & _).
  split_and!; [exact Hok|exact Hno|].
  exact (proj1 (startCall_route_outcome (Some Routes.alice) "carol" 10
                  Routes.friends_alice_bob) Hno).
Defined.
